(** * Session lifecycle engine of the multiplayer tic-tac-toe server

    A shallow embedding of [src/server.js]: the [Game] class (board, turn
    pointer, terminal flags, move counter), and the socket handlers
    [findGame], [makeMove], [disconnect] together with the deferred
    clean-up callback, acting on the shared tables [games], [players],
    [waitingPlayers] and on [metrics].

    JavaScript runs every handler to completion before the next one
    starts, so the server is a deterministic step function on an explicit
    state; an interleaving is a list of events. *)

From Stdlib Require Import ZArith QArith Lia Ascii String.
From stdpp Require Import base option list strings gmap.

Local Open Scope nat_scope.

(** ** Values held by the board *)

(** The two symbols ['X'] and ['O']. *)
Inductive Marker := X | O.

(** What reading an element of the board array can give: [undefined]
    (no such element), [null] (an empty cell) or a symbol. *)
Inductive Cell := Undefined | Null | Mark (m : Marker).

Definition Marker_eqb (a b : Marker) : bool :=
  match a, b with
  | X, X | O, O => true
  | _, _ => false
  end.

(** Strict equality [===] on the values above. *)
Definition Cell_eqb (a b : Cell) : bool :=
  match a, b with
  | Undefined, Undefined | Null, Null => true
  | Mark m, Mark n => Marker_eqb m n
  | _, _ => false
  end.

(** Truthiness: [undefined] and [null] are falsy, the strings ['X'] and
    ['O'] are truthy. *)
Definition truthy (c : Cell) : bool :=
  match c with
  | Mark _ => true
  | _ => false
  end.

#[global] Instance Marker_eq_dec : EqDecision Marker.
Proof. solve_decision. Defined.

#[global] Instance Cell_eq_dec : EqDecision Cell.
Proof. solve_decision. Defined.

(** ** Positions

    [position] arrives in the payload of a [makeMove] message, so it is
    any JSON value (or [undefined] when the field is missing).  Numbers
    are kept as exact rationals.  A property access converts an array or
    a plain object to a string first: [PObject str] is one whose
    conversion gives [str], and [PUnconvertible] is one whose conversion
    throws a [TypeError] (an object with an own [toString] that is not a
    function, such as [{"toString": 1}], or an array with such an
    element). *)
Inductive Position :=
| PNum (q : Q)
| PStr (s : string)
| PBool (b : bool)
| PNull
| PUndefined
| PObject (str : string)
| PUnconvertible.

(** Converting [position] to a property key throws. *)
Definition key_throws (position : Position) : bool :=
  match position with
  | PUnconvertible => true
  | _ => false
  end.

(** How a call ends: it returns a value, or it is left by an exception. *)
Inductive Completion (A : Type) :=
| Returned (a : A)
| Thrown.

Arguments Returned {A} a.
Arguments Thrown {A}.

#[global] Instance Completion_eq_dec {A} `{EqDecision A} :
  EqDecision (Completion A).
Proof. solve_decision. Defined.

(** The call returned [true]. *)
Definition accepted (c : Completion bool) : bool :=
  match c with
  | Returned true => true
  | _ => false
  end.

Definition is_digit (c : ascii) : bool :=
  let n := nat_of_ascii c in (48 <=? n) && (n <=? 57).

Fixpoint digits_value (s : string) (acc : N) : option N :=
  match s with
  | EmptyString => Some acc
  | String c s' =>
      if is_digit c
      then digits_value s' (10 * acc + (N_of_ascii c - 48))%N
      else None
  end.

(** Largest array index plus one: indices are the integers below
    [2^32 - 1]. *)
Definition index_limit : N := 4294967295%N.

(** A string names an array element when it is the canonical decimal
    spelling of an index: digits only, no leading zero. *)
Definition canonical_index (s : string) : option nat :=
  match s with
  | EmptyString => None
  | String c rest =>
      if Ascii.eqb c "0"%char
      then match rest with EmptyString => Some 0 | _ => None end
      else match digits_value s 0%N with
           | Some n => if (n <? index_limit)%N then Some (N.to_nat n) else None
           | None => None
           end
  end.

(** The array element, if any, that the property key of [position]
    names.  A number names one when it is an integer in range; the keys
    of [true], [false], [null] and [undefined] are never indices, and a
    position without a key names none. *)
Definition arrayIndex (position : Position) : option nat :=
  match position with
  | PNum q =>
      let r := Qred q in
      if (Zpos (Qden r) =? 1)%Z && (0 <=? Qnum r)%Z
         && (Qnum r <? Z.of_N index_limit)%Z
      then Some (Z.to_nat (Qnum r))
      else None
  | PStr s | PObject s => canonical_index s
  | PBool _ | PNull | PUndefined | PUnconvertible => None
  end.

(** [board[i]] for an index [i]: [undefined] past the end. *)
Definition cell_at (b : list Cell) (i : nat) : Cell :=
  default Undefined (b !! i).

(** [board[position] === null].  A key that is no index reads a named
    property of the array ([length], a method) or nothing at all; neither
    is [null]. *)
Definition reads_null (b : list Cell) (position : Position) : bool :=
  match arrayIndex position with
  | Some i => Cell_eqb (cell_at b i) Null
  | None => false
  end.

(** [board[position] = v].  Inside the array the element is replaced; an
    index past the end grows the array, the gap reading [undefined]; a
    key that is no index adds a named property and leaves the elements
    alone. *)
Definition board_set (b : list Cell) (position : Position) (v : Cell)
  : list Cell :=
  match arrayIndex position with
  | Some i =>
      if i <? length b then <[i:=v]> b
      else b ++ replicate (i - length b) Undefined ++ [v]
  | None => b
  end.

(** ** The [Game] class *)

Record Game := mkGame {
  roomId : string;
  board : list Cell;
  playerX : string;          (* players.X *)
  playerO : string;          (* players.O *)
  currentTurn : Marker;
  winner : option Marker;    (* null or a symbol *)
  isDraw : bool;
  moveCount : nat;
  startTime : Z              (* Date.now() at construction, in ms *)
}.

(** [game.players[symbol]]. *)
Definition game_player (g : Game) (m : Marker) : string :=
  match m with X => playerX g | O => playerO g end.

(** The constructor; [now] is the value [Date.now()] returns. *)
Definition newGame (room player1 player2 : string) (now : Z) : Game :=
  {| roomId := room;
     board := replicate 9 Null;
     playerX := player1;
     playerO := player2;
     currentTurn := X;
     winner := None;
     isDraw := false;
     moveCount := 0;
     startTime := now |}.

Definition set_board (b : list Cell) (g : Game) : Game :=
  mkGame (roomId g) b (playerX g) (playerO g) (currentTurn g) (winner g)
         (isDraw g) (moveCount g) (startTime g).

Definition set_currentTurn (t : Marker) (g : Game) : Game :=
  mkGame (roomId g) (board g) (playerX g) (playerO g) t (winner g)
         (isDraw g) (moveCount g) (startTime g).

Definition set_winner (w : option Marker) (g : Game) : Game :=
  mkGame (roomId g) (board g) (playerX g) (playerO g) (currentTurn g) w
         (isDraw g) (moveCount g) (startTime g).

Definition set_isDraw (d : bool) (g : Game) : Game :=
  mkGame (roomId g) (board g) (playerX g) (playerO g) (currentTurn g)
         (winner g) d (moveCount g) (startTime g).

Definition set_moveCount (n : nat) (g : Game) : Game :=
  mkGame (roomId g) (board g) (playerX g) (playerO g) (currentTurn g)
         (winner g) (isDraw g) n (startTime g).

Definition winPatterns : list (nat * nat * nat) :=
  [ (0, 1, 2); (3, 4, 5); (6, 7, 8);   (* rows *)
    (0, 3, 6); (1, 4, 7); (2, 5, 8);   (* columns *)
    (0, 4, 8); (2, 4, 6) ].            (* diagonals *)

(** The test of the loop body of [checkWinner]: [board[a]] when
    [board[a] && board[a] === board[b] && board[a] === board[c]]. *)
Definition pattern_hit (bd : list Cell) (p : nat * nat * nat)
  : option Marker :=
  let '(a, b, c) := p in
  if truthy (cell_at bd a)
     && Cell_eqb (cell_at bd a) (cell_at bd b)
     && Cell_eqb (cell_at bd a) (cell_at bd c)
  then match cell_at bd a with Mark m => Some m | _ => None end
  else None.

(** The [for] loop of [checkWinner], leaving at the first hit. *)
Fixpoint scan_patterns (bd : list Cell) (ps : list (nat * nat * nat))
  : option Marker :=
  match ps with
  | [] => None
  | p :: rest =>
      match pattern_hit bd p with
      | Some m => Some m
      | None => scan_patterns bd rest
      end
  end.

Definition checkWinner (g : Game) : Game :=
  match scan_patterns (board g) winPatterns with
  | Some m => set_winner (Some m) g
  | None => if moveCount g =? 9 then set_isDraw true g else g
  end.

(** [currentTurn === 'X' ? 'O' : 'X']. *)
Definition other (m : Marker) : Marker :=
  match m with X => O | O => X end.

(** [makeMove(position, symbol)]: the game after the call and how the
    call ended.  The first thing evaluated is [this.board[position]]; when
    the conversion of [position] to a property key throws, the call is
    left there, before anything is written. *)
Definition makeMove (g : Game) (position : Position) (symbol : Marker)
  : Game * Completion bool :=
  if key_throws position then (g, Thrown)
  else if negb (reads_null (board g) position)
          || bool_decide (is_Some (winner g)) || isDraw g
  then (g, Returned false)
  else
    let g1 := set_board (board_set (board g) position (Mark symbol)) g in
    let g2 := set_moveCount (S (moveCount g1)) g1 in
    let g3 := checkWinner g2 in
    let g4 := set_currentTurn (other (currentTurn g3)) g3 in
    (g4, Returned true).

(** A sequence of calls on one game object, by a caller that goes on
    after a call that threw. *)
Definition submit (g : Game) (mv : Position * Marker) : Game :=
  fst (makeMove g mv.1 mv.2).

Definition run (g : Game) (mvs : list (Position * Marker)) : Game :=
  foldl submit g mvs.

(** Number of cells holding a symbol. *)
Definition filled (bd : list Cell) : nat :=
  length (filter (λ c, truthy c = true) bd).

(** ** The shared tables and the socket handlers *)

(** An entry of [players]: [{ roomId, symbol, name }]. *)
Record PlayerInfo := mkPlayerInfo {
  p_roomId : string;
  p_symbol : Marker;
  p_name : string
}.

Record Metrics := mkMetrics {
  totalGames : Z;
  activeGames : Z;
  totalConnections : Z;
  peakConnections : Z;
  averageGameDuration : Q
}.

(** Where a message goes: [socket.emit] and [io.to(id)] reach one
    connection, [io.to(roomId)] reaches the sockets joined to the room. *)
Inductive Target := ToSocket (id : string) | ToRoom (room : string).

Inductive Message :=
| GameStart (room : string) (symbol : Marker) (opponent : string)
            (gameState : Game)
| Waiting
| ErrorMessage (message : string)
| GameUpdate (gameState : Game)
| GameEnd (w : option Marker) (draw : bool) (duration : Q) (moves : nat)
| OpponentDisconnected.

(** The callback handed to [setTimeout] by a terminal move, with what it
    closes over.  It closes over the game object itself; a game with a
    terminal flag is never written again ([makeMove] returns early), so
    the record taken here is what the callback reads when it runs. *)
Record Timer := mkTimer {
  t_roomId : string;
  t_socket : string;
  t_symbol : Marker;
  t_game : Game;
  t_duration : Q
}.

Record Server := mkServer {
  games : gmap string Game;
  players : gmap string PlayerInfo;
  waitingPlayers : list string;      (* sockets, by id *)
  metrics : Metrics;
  timers : list Timer;               (* pending callbacks, oldest first *)
  outbox : list (Target * Message)   (* messages emitted, oldest first *)
}.

Definition initialMetrics : Metrics :=
  mkMetrics 0 0 0 0 0.

Definition initialServer : Server :=
  mkServer ∅ ∅ [] initialMetrics [] [].

Definition emit (t : Target) (m : Message) (s : Server) : Server :=
  mkServer (games s) (players s) (waitingPlayers s) (metrics s) (timers s)
           (outbox s ++ [(t, m)]).

(** [socket.on('findGame')].  [room] is the string the template literal
    for [roomId] evaluates to and [now] the clock read by the [Game]
    constructor. *)
Definition onFindGame (s : Server) (socket room : string) (now : Z)
  : Server :=
  match waitingPlayers s with
  | opponent :: rest =>
      let game := newGame room socket opponent now in
      let games1 := <[room := game]> (games s) in
      let players1 :=
        <[opponent := mkPlayerInfo room O "Player2"]>
          (<[socket := mkPlayerInfo room X "Player1"]> (players s)) in
      let m := metrics s in
      let metrics1 :=
        mkMetrics (totalGames m + 1) (activeGames m + 1)
                  (totalConnections m) (peakConnections m)
                  (averageGameDuration m) in
      emit (ToSocket opponent) (GameStart room O "Player1" game)
        (emit (ToSocket socket) (GameStart room X "Player2" game)
           (mkServer games1 players1 rest metrics1 (timers s) (outbox s)))
  | [] =>
      emit (ToSocket socket) Waiting
        (mkServer (games s) (players s) (waitingPlayers s ++ [socket])
                  (metrics s) (timers s) (outbox s))
  end.

(** The two metric assignments of the terminal branch.  Durations and
    the average are exact rationals here; the code computes them in
    double precision, which gives the same values as long as the inputs
    and every intermediate result are exactly representable. *)
Definition gameEnded (m : Metrics) (gameDuration : Q) : Metrics :=
  let active := (activeGames m - 1)%Z in
  let totalDuration :=
    (averageGameDuration m * inject_Z (totalGames m - 1) + gameDuration)%Q in
  mkMetrics (totalGames m) active (totalConnections m) (peakConnections m)
            (totalDuration / inject_Z (totalGames m))%Q.

Definition terminal (g : Game) : bool :=
  bool_decide (is_Some (winner g)) || isDraw g.

(** [socket.on('makeMove')] with a payload [{ roomId: room, position }]:
    the state the handler leaves and how it ended; [now] is the clock
    read in the terminal branch.  When [game.makeMove] throws, nothing in
    the handler catches it: the handler is left at that call, having
    emitted nothing, and the game is as it was (the throw precedes every
    write).  A message whose payload is [undefined] or [null] makes the
    destructuring of the parameter throw before the body runs and changes
    nothing; it is not an event of this model.  A [roomId] that is no
    string is no key of [games] and behaves like a string that is none. *)
Definition onMakeMove (s : Server) (socket room : string)
    (position : Position) (now : Z) : Server * Completion unit :=
  match games s !! room, players s !! socket with
  | Some game, Some player =>
      if negb (Marker_eqb (currentTurn game) (p_symbol player))
      then (emit (ToSocket socket) (ErrorMessage "Not your turn") s,
            Returned ())
      else
        match makeMove game position (p_symbol player) with
        | (game', Returned moveSuccess) =>
            if moveSuccess then
              let s1 :=
                emit (ToRoom room) (GameUpdate game')
                  (mkServer (<[room := game']> (games s)) (players s)
                            (waitingPlayers s) (metrics s) (timers s)
                            (outbox s)) in
              if terminal game' then
                let gameDuration :=
                  (inject_Z (now - startTime game') / 1000)%Q in
                (mkServer (games s1) (players s1) (waitingPlayers s1)
                          (gameEnded (metrics s1) gameDuration)
                          (timers s1 ++
                             [mkTimer room socket (p_symbol player) game'
                                      gameDuration])
                          (outbox s1),
                 Returned ())
              else (s1, Returned ())
            else (emit (ToSocket socket) (ErrorMessage "Invalid move") s,
                  Returned ())
        | (_, Thrown) => (s, Thrown)
        end
  | _, _ =>
      (emit (ToSocket socket) (ErrorMessage "Game not found") s,
       Returned ())
  end.

(** The callback of [setTimeout] running. *)
Definition runTimer (s : Server) (t : Timer) : Server :=
  let game := t_game t in
  let s1 :=
    emit (ToRoom (t_roomId t))
         (GameEnd (winner game) (isDraw game) (t_duration t)
                  (moveCount game)) s in
  let opponentId := game_player game (other (t_symbol t)) in
  mkServer (delete (t_roomId t) (games s1))
           (delete opponentId (delete (t_socket t) (players s1)))
           (waitingPlayers s1) (metrics s1) (timers s1) (outbox s1).

(** [indexOf] followed by [splice(i, 1)]: drop the first occurrence. *)
Fixpoint remove_first (x : string) (l : list string) : list string :=
  match l with
  | [] => []
  | y :: rest => if String.eqb x y then rest else y :: remove_first x rest
  end.

(** [socket.on('disconnect')]. *)
Definition onDisconnect (s : Server) (socket : string) : Server :=
  let s0 :=
    mkServer (games s) (players s) (remove_first socket (waitingPlayers s))
             (metrics s) (timers s) (outbox s) in
  let s1 :=
    match players s0 !! socket with
    | Some player =>
        if String.eqb (p_roomId player) "" then s0   (* falsy roomId *)
        else
          match games s0 !! p_roomId player with
          | Some game =>
              let opponentId := game_player game (other (p_symbol player)) in
              let s' := emit (ToSocket opponentId) OpponentDisconnected s0 in
              let m := metrics s' in
              mkServer (delete (p_roomId player) (games s'))
                       (delete opponentId (players s'))
                       (waitingPlayers s')
                       (mkMetrics (totalGames m) (activeGames m - 1)
                                  (totalConnections m) (peakConnections m)
                                  (averageGameDuration m))
                       (timers s') (outbox s')
          | None => s0
          end
    | None => s0
    end in
  mkServer (games s1) (delete socket (players s1)) (waitingPlayers s1)
           (metrics s1) (timers s1) (outbox s1).

(** What the event loop can run next.  An exception that leaves a
    handler is caught nowhere in the file; the tables are then as the
    handler left them, which is the state the next event finds if the
    process goes on. *)
Inductive Event :=
| FindGame (socket room : string) (now : Z)
| MakeMove (socket room : string) (position : Position) (now : Z)
| Disconnect (socket : string)
| Timeout.    (* the oldest pending callback fires *)

Definition step (s : Server) (e : Event) : Server :=
  match e with
  | FindGame socket room now => onFindGame s socket room now
  | MakeMove socket room position now =>
      (onMakeMove s socket room position now).1
  | Disconnect socket => onDisconnect s socket
  | Timeout =>
      match timers s with
      | t :: rest =>
          runTimer (mkServer (games s) (players s) (waitingPlayers s)
                             (metrics s) rest (outbox s)) t
      | [] => s
      end
  end.

Definition steps (s : Server) (es : list Event) : Server :=
  foldl step s es.

(** A sequence of moves in which every call is made by the role whose
    turn it is and is accepted. *)
Fixpoint valid_alternating (g : Game) (mvs : list (Position * Marker))
  : bool :=
  match mvs with
  | [] => true
  | mv :: rest =>
      Marker_eqb mv.2 (currentTurn g)
      && accepted (makeMove g mv.1 mv.2).2
      && valid_alternating (makeMove g mv.1 mv.2).1 rest
  end.



(** All three cells of a pattern hold the symbol [m]. *)
Definition line_won (bd : list Cell) (p : nat * nat * nat) (m : Marker)
  : Prop :=
  bd !! p.1.1 = Some (Mark m) ∧ bd !! p.1.2 = Some (Mark m)
  ∧ bd !! p.2 = Some (Mark m).

(** No symbol fills the pattern. *)
Definition line_open (bd : list Cell) (p : nat * nat * nat) : Prop :=
  ∀ m, ¬ line_won bd p m.



(** Arithmetic mean of a list of durations. *)
Definition mean (ds : list Q) : Q :=
  (foldr Qplus 0 ds / inject_Z (Z.of_nat (length ds)))%Q.

(** What holds of every game object the server ever stores: the board
    has its nine cells, none of them [undefined]; the counter counts the
    symbols on the board; ['X'] is to move after an even number of moves;
    the two terminal flags are not both set. *)
Record well_formed (g : Game) : Prop := mkWellFormed {
  wf_length : length (board g) = 9;
  wf_cells : Forall (λ c, c ≠ Undefined) (board g);
  wf_count : moveCount g = filled (board g);
  wf_turn : currentTurn g = if Nat.even (moveCount g) then X else O;
  wf_flags : winner g = None ∨ isDraw g = false
}.

(** ** Scenarios

    Two pairs of sockets are matched one after the other: [a2] plays X
    and [a1] plays O in room ["A"], [b2] plays X and [b1] plays O in room
    ["B"].  (The room argument of a [FindGame] that only queues the
    caller is not used.) *)
Definition one_session : Server :=
  steps initialServer [FindGame "a1" "A" 0; FindGame "a2" "A" 0].

Definition two_sessions : Server :=
  steps one_session [FindGame "b1" "B" 0; FindGame "b2" "B" 0].

(** X takes the top row of room ["A"]; the last move is handled two
    seconds after the game was created. *)
Definition x_wins_A : list Event :=
  [ MakeMove "a2" "A" (PNum 0) 400; MakeMove "a1" "A" (PNum 3) 800;
    MakeMove "a2" "A" (PNum 1) 1200; MakeMove "a1" "A" (PNum 4) 1600;
    MakeMove "a2" "A" (PNum 2) 2000 ].

(** ** The [connection] handler and the whole event loop *)

(** The payload of the ['connected'] message: [playerId] and, under
    [metrics], [activeGames] and [activePlayers]. *)
Record Connected := mkConnected {
  playerId : string;
  c_activeGames : Z;
  activePlayers : Z
}.

(** [io.on('connection')] up to the registration of the per-socket
    handlers; [clientsCount] is what [io.engine.clientsCount] reads.  The
    message goes to the new socket and is returned beside the state. *)
Definition onConnection (s : Server) (socket : string) (clientsCount : Z)
  : Server * Connected :=
  let m := metrics s in
  let metrics1 :=
    mkMetrics (totalGames m) (activeGames m) (totalConnections m + 1)
              (Z.max (peakConnections m) clientsCount)
              (averageGameDuration m) in
  (mkServer (games s) (players s) (waitingPlayers s) metrics1 (timers s)
            (outbox s),
   mkConnected socket (activeGames metrics1) clientsCount).

(** Everything the process reacts to that can change its state. *)
Inductive Inbound :=
| Connection (socket : string) (clientsCount : Z)
| Handled (e : Event).

Definition serve (s : Server) (i : Inbound) : Server :=
  match i with
  | Connection socket clientsCount => (onConnection s socket clientsCount).1
  | Handled e => step s e
  end.

Definition serveAll (s : Server) (inb : list Inbound) : Server :=
  foldl serve s inb.

(** The [clientsCount] of the connections in a list of inbound events. *)
Definition clientsCounts (inb : list Inbound) : list Z :=
  omap (λ i, match i with
             | Connection _ n => Some n
             | Handled _ => None
             end) inb.

(** ** Predicates on games and on the tables *)

(** Number of cells holding the symbol [m]. *)
Definition count_marker (m : Marker) (bd : list Cell) : nat :=
  length (filter (λ c, c = Mark m) bd).

(** The flags say what the board shows: the winner is what the loop of
    [checkWinner] finds on the board, and the draw flag is set when it
    finds nothing on a board that took nine moves. *)
Definition settled (g : Game) : Prop :=
  winner g = scan_patterns (board g) winPatterns
  ∧ isDraw g = match scan_patterns (board g) winPatterns with
               | Some _ => false
               | None => moveCount g =? 9
               end.

(** The board of a game whose moves were all made by the role on turn:
    as many X as O when X is to move, one more X when O is to move, and
    a winner, if any, is the role that is not to move. *)
Record played_in_turn (g : Game) : Prop := mkPlayedInTurn {
  pit_well_formed : well_formed g;
  pit_settled : settled g;
  pit_balance :
    count_marker X (board g)
    = count_marker O (board g)
      + match currentTurn g with X => 0 | O => 1 end;
  pit_winner : ∀ m, winner g = Some m → m = other (currentTurn g)
}.

(** Every entry of [players] whose room is in [games] names a seat of
    that game held by the socket of the entry. *)
Definition memberships_consistent (s : Server) : Prop :=
  ∀ id player game,
    players s !! id = Some player →
    games s !! p_roomId player = Some game →
    game_player game (p_symbol player) = id.

(** The room id an event brings is not yet used by any entry of
    [players] (only [findGame] brings one). *)
Definition room_unused (s : Server) (i : Inbound) : Prop :=
  match i with
  | Handled (FindGame _ room _) =>
      ∀ id player, players s !! id = Some player → p_roomId player ≠ room
  | _ => True
  end.

(** Every finished game still in [games] has its removal pending. *)
Definition cleanup_scheduled (s : Server) : Prop :=
  ∀ room game,
    games s !! room = Some game → terminal game = true →
    ∃ t, t ∈ timers s ∧ t_roomId t = room.

(** Along a run, every room id a [findGame] brings is unused when it
    arrives. *)
Fixpoint rooms_unused (s : Server) (inb : list Inbound) : Prop :=
  match inb with
  | [] => True
  | i :: rest => room_unused s i ∧ rooms_unused (serve s i) rest
  end.

(** ** The state machine, tried on concrete inputs *)

Example makeMove_first :
  let r := makeMove (newGame "r" "a" "b" 0) (PNum 4) X in
  r.2 = Returned true ∧ board r.1 !! 4 = Some (Mark X) ∧ currentTurn r.1 = O.
Proof. vm_compute. auto. Qed.

Example makeMove_string_key :
  (makeMove (newGame "r" "a" "b" 0) (PStr "7") X).2 = Returned true
  ∧ (makeMove (newGame "r" "a" "b" 0) (PStr "07") X).2 = Returned false
  ∧ (makeMove (newGame "r" "a" "b" 0) (PStr "length") X).2 = Returned false
  ∧ (makeMove (newGame "r" "a" "b" 0) (PNum (3 # 2)) X).2 = Returned false
  ∧ (makeMove (newGame "r" "a" "b" 0) (PNum (-1)) X).2 = Returned false
  ∧ (makeMove (newGame "r" "a" "b" 0) (PNum 9) X).2 = Returned false.
Proof. vm_compute. auto 10. Qed.

Example makeMove_unconvertible_position :
  let g := (makeMove (newGame "r" "a" "b" 0) (PNum 4) X).1 in
  makeMove g PUnconvertible O = (g, Thrown)
  ∧ makeMove g (PObject "[object Object]") O = (g, Returned false)
  ∧ (makeMove g (PObject "5") O).2 = Returned true.
Proof. vm_compute. auto. Qed.


(** ** Basic facts about reads and writes of the board *)

Lemma Marker_eqb_eq (a b : Marker) : Marker_eqb a b = true ↔ a = b.
Proof. destruct a, b; simpl; split; congruence. Qed.

Lemma Cell_eqb_eq (a b : Cell) : Cell_eqb a b = true ↔ a = b.
Proof.
  destruct a as [| |m], b as [| |n]; simpl; try (split; congruence).
  rewrite Marker_eqb_eq. split; congruence.
Qed.

Lemma other_neq (m : Marker) : other m ≠ m.
Proof. by destruct m. Qed.

Lemma reads_null_spec (bd : list Cell) (position : Position) :
  reads_null bd position = true
  ↔ ∃ i, arrayIndex position = Some i ∧ bd !! i = Some Null.
Proof.
  unfold reads_null, cell_at. split.
  - destruct (arrayIndex position) as [i|]; [|done].
    intros H%Cell_eqb_eq. exists i. split; [done|].
    destruct (bd !! i); simpl in H; congruence.
  - intros (i & -> & ->). done.
Qed.

Lemma board_set_inside (bd : list Cell) position i v :
  arrayIndex position = Some i → i < length bd →
  board_set bd position v = <[i:=v]> bd.
Proof.
  intros Hi Hlt. unfold board_set. rewrite Hi.
  destruct (Nat.ltb_spec i (length bd)); [done|lia].
Qed.

Lemma filled_insert (bd : list Cell) (i : nat) (m : Marker) :
  bd !! i = Some Null → filled (<[i:=Mark m]> bd) = S (filled bd).
Proof.
  unfold filled. revert i. induction bd as [|c bd IH]; intros [|i] H;
    simpl in *; try done.
  - injection H as ->. by rewrite filter_cons_False.
  - specialize (IH i H). rewrite !filter_cons.
    destruct (decide (truthy c = true)); simpl; lia.
Qed.

Lemma filled_replicate_Null (n : nat) : filled (replicate n Null) = 0.
Proof.
  unfold filled. induction n as [|n IH]; simpl; [done|].
  by rewrite filter_cons_False.
Qed.

(** ** [checkWinner] *)

Lemma checkWinner_board g : board (checkWinner g) = board g.
Proof.
  unfold checkWinner. destruct (scan_patterns _ _); [done|].
  by destruct (moveCount g =? 9).
Qed.

Lemma checkWinner_moveCount g : moveCount (checkWinner g) = moveCount g.
Proof.
  unfold checkWinner. destruct (scan_patterns _ _); [done|].
  by destruct (moveCount g =? 9).
Qed.

Lemma checkWinner_currentTurn g : currentTurn (checkWinner g) = currentTurn g.
Proof.
  unfold checkWinner. destruct (scan_patterns _ _); [done|].
  by destruct (moveCount g =? 9).
Qed.

Lemma pattern_hit_spec (bd : list Cell) (p : nat * nat * nat) (m : Marker) :
  pattern_hit bd p = Some m ↔ line_won bd p m.
Proof.
  destruct p as [[a b] c]. unfold pattern_hit, line_won, cell_at. simpl.
  destruct (bd !! a) as [[| |ma]|] eqn:Ha; simpl;
    try (split; [done | intros (? & _); congruence]).
  destruct (bd !! b) as [[| |mb]|] eqn:Hb; simpl;
    try (split; [done | intros (_ & ? & _); congruence]).
  destruct (bd !! c) as [[| |mc]|] eqn:Hc; simpl;
    try (rewrite andb_false_r; split;
         [done | intros (_ & _ & ?); congruence]).
  destruct ma, mb, mc, m; simpl; split;
    first [ done | intros (? & ? & ?); congruence | intros; by repeat split ].
Qed.

Lemma pattern_hit_None (bd : list Cell) (p : nat * nat * nat) :
  pattern_hit bd p = None ↔ line_open bd p.
Proof.
  unfold line_open. split.
  - intros H m Hm%pattern_hit_spec. congruence.
  - intros H. destruct (pattern_hit bd p) as [m|] eqn:E; [|done].
    apply pattern_hit_spec in E. by destruct (H m).
Qed.

(** The loop returns the symbol of the first pattern that is filled. *)
Lemma scan_patterns_Some bd ps m :
  scan_patterns bd ps = Some m
  ↔ ∃ before p after, ps = before ++ p :: after
      ∧ Forall (line_open bd) before ∧ line_won bd p m.
Proof.
  induction ps as [|q ps IH]; simpl.
  - split; [done|]. intros (before & p & after & E & _).
    by destruct before.
  - destruct (pattern_hit bd q) as [mq|] eqn:Hq.
    + split.
      * intros [= ->]. exists [], q, ps. split; [done|].
        split; [constructor|]. by apply pattern_hit_spec.
      * intros ([|q' before] & p & after & E & Hopen & Hwon).
        -- injection E as <- _. apply pattern_hit_spec in Hwon. congruence.
        -- injection E as <- _. apply Forall_cons in Hopen as [Hopen _].
           apply pattern_hit_None in Hopen. congruence.
    + rewrite IH. split.
      * intros (before & p & after & -> & Hopen & Hwon).
        exists (q :: before), p, after. split; [done|]. split; [|done].
        constructor; [by apply pattern_hit_None|done].
      * intros ([|q' before] & p & after & E & Hopen & Hwon).
        -- injection E as <- _. apply pattern_hit_spec in Hwon. congruence.
        -- injection E as <- ->. apply Forall_cons in Hopen as [_ Hopen].
           by exists before, p, after.
Qed.

Lemma scan_patterns_None bd ps :
  scan_patterns bd ps = None ↔ Forall (line_open bd) ps.
Proof.
  induction ps as [|q ps IH]; simpl.
  - split; [constructor|done].
  - destruct (pattern_hit bd q) as [mq|] eqn:Hq.
    + split; [done|]. intros [Hopen _]%Forall_cons.
      apply pattern_hit_None in Hopen. congruence.
    + rewrite IH. split.
      * intros H. constructor; [by apply pattern_hit_None|done].
      * by intros [_ H]%Forall_cons.
Qed.

(** ** [makeMove] *)


Lemma makeMove_thrown_iff g position symbol :
  (makeMove g position symbol).2 = Thrown ↔ key_throws position = true.
Proof.
  unfold makeMove. destruct (key_throws position); [done|].
  by destruct (negb (reads_null (board g) position)
               || bool_decide (is_Some (winner g)) || isDraw g).
Qed.

(** A call that did not return [true] has written nothing. *)
Lemma makeMove_unchanged g position symbol :
  (makeMove g position symbol).2 ≠ Returned true →
  (makeMove g position symbol).1 = g.
Proof.
  unfold makeMove. destruct (key_throws position); [done|].
  by destruct (negb (reads_null (board g) position)
               || bool_decide (is_Some (winner g)) || isDraw g).
Qed.

Lemma makeMove_cases g position symbol :
  (makeMove g position symbol).2 = Returned true
  ∨ (makeMove g position symbol).1 = g.
Proof.
  destruct (decide ((makeMove g position symbol).2 = Returned true));
    [by left|right; by apply makeMove_unchanged].
Qed.


Lemma makeMove_accepted g position symbol :
  (makeMove g position symbol).2 = Returned true →
  reads_null (board g) position = true ∧ winner g = None ∧ isDraw g = false
  ∧ (makeMove g position symbol).1 =
      set_currentTurn (other (currentTurn g))
        (checkWinner
           (set_moveCount (S (moveCount g))
              (set_board (board_set (board g) position (Mark symbol)) g))).
Proof.
  unfold makeMove. destruct (key_throws position); [done|].
  destruct (reads_null (board g) position) eqn:Hr; simpl; [|done].
  destruct (winner g) as [w|] eqn:Hw; simpl; [done|].
  destruct (isDraw g) eqn:Hd; simpl; [done|].
  intros _. repeat split. by rewrite checkWinner_currentTurn.
Qed.

Lemma makeMove_terminal g position symbol :
  terminal g = true →
  makeMove g position symbol
  = (g, if key_throws position then Thrown else Returned false).
Proof.
  unfold terminal, makeMove. intros H.
  destruct (key_throws position); [done|].
  destruct (negb (reads_null (board g) position)); simpl; [done|].
  by rewrite H.
Qed.

#[local] Arguments scan_patterns : simpl never.

(** An accepted call, spelled out field by field. *)
Lemma makeMove_accepted_fields g position symbol :
  (makeMove g position symbol).2 = Returned true →
  let g' := (makeMove g position symbol).1 in
  ∃ i, arrayIndex position = Some i
     ∧ board g !! i = Some Null
     ∧ winner g = None ∧ isDraw g = false
     ∧ board g' = <[i:=Mark symbol]> (board g)
     ∧ moveCount g' = S (moveCount g)
     ∧ currentTurn g' = other (currentTurn g)
     ∧ winner g' = scan_patterns (board g') winPatterns
     ∧ isDraw g' = match scan_patterns (board g') winPatterns with
                   | Some _ => false
                   | None => moveCount g' =? 9
                   end.
Proof.
  intros Hok. destruct (makeMove_accepted _ _ _ Hok) as (Hr & Hw & Hd & E).
  apply reads_null_spec in Hr as (i & Hi & Hnull).
  assert (Hlt : i < length (board g)) by (eapply lookup_lt_Some; eauto).
  cbn zeta. rewrite E. exists i.
  rewrite (board_set_inside _ _ i) by done.
  set (g2 := set_moveCount _ _).
  assert (Hb2 : board g2 = <[i:=Mark symbol]> (board g)) by done.
  assert (Hw2 : winner g2 = None) by done.
  assert (Hd2 : isDraw g2 = false) by done.
  assert (Hm2 : moveCount g2 = S (moveCount g)) by done.
  repeat split; try done.
  - simpl. by rewrite checkWinner_board.
  - simpl. by rewrite checkWinner_moveCount.
  - simpl. rewrite checkWinner_board. unfold checkWinner.
    destruct (scan_patterns (board g2) winPatterns); [done|].
    by destruct (moveCount g2 =? 9).
  - simpl. rewrite checkWinner_board, checkWinner_moveCount.
    unfold checkWinner.
    destruct (scan_patterns (board g2) winPatterns); [done|].
    by destruct (moveCount g2 =? 9).
Qed.

Lemma well_formed_newGame room player1 player2 now :
  well_formed (newGame room player1 player2 now).
Proof.
  split; simpl; try done.
  - repeat constructor; done.
  - by left.
Qed.

Lemma well_formed_makeMove g position symbol :
  well_formed g → well_formed (makeMove g position symbol).1.
Proof.
  intros Hwf. destruct (makeMove_cases g position symbol) as [Hok|Hsame].
  - destruct (makeMove_accepted_fields _ _ _ Hok)
      as (i & Hi & Hnull & Hw & Hd & Hb & Hm & Ht & Hw' & Hd').
    destruct Hwf as [Hlen Hcells Hcount Hturn _]. split.
    + by rewrite Hb, length_insert.
    + rewrite Hb. by apply Forall_insert.
    + rewrite Hm, Hb, filled_insert by done. by rewrite Hcount.
    + rewrite Ht, Hm, Hturn, Nat.even_succ, <- Nat.negb_even.
      by destruct (Nat.even (moveCount g)).
    + rewrite Hw', Hd'. destruct (scan_patterns _ _); [by right|by left].
  - by rewrite Hsame.
Qed.

Lemma well_formed_run g mvs : well_formed g → well_formed (run g mvs).
Proof.
  revert g. induction mvs as [|mv mvs IH]; intros g Hwf; [done|].
  simpl. apply IH. by apply well_formed_makeMove.
Qed.

Lemma run_snoc g mvs mv : run g (mvs ++ [mv]) = submit (run g mvs) mv.
Proof. unfold run. by rewrite foldl_app. Qed.

Lemma run_terminal g mvs : terminal g = true → run g mvs = g.
Proof.
  intros Ht. induction mvs as [|mv mvs IH]; [done|].
  simpl. unfold submit. by rewrite makeMove_terminal.
Qed.

Lemma accepted_true (c : Completion bool) :
  accepted c = true ↔ c = Returned true.
Proof. destruct c as [[|]|]; simpl; split; congruence. Qed.

Lemma valid_alternating_snoc g mvs mv :
  valid_alternating g (mvs ++ [mv]) = true →
  valid_alternating g mvs = true
  ∧ mv.2 = currentTurn (run g mvs)
  ∧ (makeMove (run g mvs) mv.1 mv.2).2 = Returned true.
Proof.
  revert g. induction mvs as [|m0 mvs IH]; intros g; simpl.
  - rewrite andb_true_r. intros [Ht Hok]%andb_prop.
    apply Marker_eqb_eq in Ht. by apply accepted_true in Hok.
  - intros [[Ht Hok]%andb_prop Hrest]%andb_prop.
    destruct (IH _ Hrest) as (Hv & Hturn & Hacc).
    rewrite Ht, Hok, Hv. done.
Qed.

Lemma valid_alternating_moveCount g mvs :
  valid_alternating g mvs = true →
  moveCount (run g mvs) = moveCount g + length mvs.
Proof.
  revert g. induction mvs as [|m0 mvs IH]; intros g; simpl; [lia|].
  intros [[_ Hok%accepted_true]%andb_prop Hrest]%andb_prop.
  unfold submit. rewrite (IH _ Hrest).
  destruct (makeMove_accepted_fields _ _ _ Hok)
    as (i & _ & _ & _ & _ & _ & Hm & _).
  rewrite Hm. lia.
Qed.

(** ** Turn order and the move counter *)

Lemma makeMove_flips_turn (g : Game) (position : Position) (symbol : Marker) :
  (makeMove g position symbol).2 = Returned true →
  currentTurn (makeMove g position symbol).1 = other (currentTurn g)
  ∧ currentTurn (makeMove g position symbol).1 ≠ currentTurn g.
Proof.
  intros Hok.
  destruct (makeMove_accepted_fields _ _ _ Hok)
    as (i & _ & _ & _ & _ & _ & _ & Ht & _).
  rewrite Ht. split; [done|apply other_neq].
Qed.

(** C1, as stated, fails.  X holds cells 0 and 1, O holds 3 and 4, and X
    is to move.  X plays cell 2: the move is accepted and sets the winner
    to X, yet the turn pointer of the post-move state is O, not the role
    that just moved. *)
Lemma C1_terminal_move_still_flips :
  let g := run (newGame "room" "p1" "p2" 0)
               [(PNum 0, X); (PNum 3, O); (PNum 1, X); (PNum 4, O)] in
  let r := makeMove g (PNum 2) X in
  currentTurn g = X ∧ r.2 = Returned true ∧ winner r.1 = Some X
  ∧ currentTurn r.1 = O ∧ currentTurn r.1 ≠ X.
Proof. vm_compute. repeat split; congruence. Qed.

(** C1, amended: every accepted move flips the active role, whether or
    not it reached a terminal condition; the role recorded after the move
    is the opposite of the role recorded before it. *)
Theorem C1_accepted_move_flips_turn (g : Game) (position : Position)
    (symbol : Marker) :
  (makeMove g position symbol).2 = Returned true →
  currentTurn (makeMove g position symbol).1 = other (currentTurn g)
  ∧ currentTurn (makeMove g position symbol).1 ≠ currentTurn g.
Proof.
  apply makeMove_flips_turn.
Qed.

Lemma C1_accepted_move_flips_turn_witness :
  let g := run (newGame "room" "p1" "p2" 0)
               [(PNum 0, X); (PNum 3, O); (PNum 1, X); (PNum 4, O)] in
  (makeMove g (PNum 2) X).2 = Returned true
  ∧ currentTurn (makeMove g (PNum 2) X).1 = other (currentTurn g)
  ∧ currentTurn (makeMove g (PNum 2) X).1 ≠ currentTurn g.
Proof.
  cbv zeta. split; [vm_compute; reflexivity|].
  apply C1_accepted_move_flips_turn. vm_compute. reflexivity.
Defined.

(** C7: along a sequence of valid alternating moves on a fresh session,
    each move is made by the active role, the active role after it is the
    other role, and the move counter equals the number of non-empty cells
    of the board (and the number of moves made). *)
Theorem C7_alternation_and_count (room player1 player2 : string) (now : Z)
    (mvs : list (Position * Marker)) (mv : Position * Marker) :
  valid_alternating (newGame room player1 player2 now) (mvs ++ [mv]) = true →
  let g := run (newGame room player1 player2 now) mvs in
  let g' := run (newGame room player1 player2 now) (mvs ++ [mv]) in
  mv.2 = currentTurn g
  ∧ currentTurn g' = other (currentTurn g)
  ∧ currentTurn g' ≠ currentTurn g
  ∧ moveCount g' = filled (board g')
  ∧ moveCount g' = S (length mvs).
Proof.
  intros Hvalid g g'.
  destruct (valid_alternating_snoc _ _ _ Hvalid) as (Hpre & Hturn & Hok).
  fold g in Hturn, Hok.
  assert (Eg' : g' = (makeMove g mv.1 mv.2).1)
    by (subst g g'; by rewrite run_snoc).
  destruct (makeMove_flips_turn g mv.1 mv.2 Hok) as [Hflip Hne].
  rewrite Eg'. repeat split; try done.
  - apply wf_count, well_formed_makeMove. subst g.
    apply well_formed_run, well_formed_newGame.
  - rewrite <- Eg'. subst g'.
    rewrite (valid_alternating_moveCount _ _ Hvalid), length_app.
    simpl. lia.
Qed.

Lemma C7_alternation_and_count_witness :
  let fresh := newGame "room" "p1" "p2" 0 in
  let mvs := [(PNum 0, X); (PNum 3, O); (PNum 1, X); (PNum 4, O)] in
  valid_alternating fresh (mvs ++ [(PNum 2, X)]) = true
  ∧ currentTurn (run fresh (mvs ++ [(PNum 2, X)]))
    = other (currentTurn (run fresh mvs))
  ∧ moveCount (run fresh (mvs ++ [(PNum 2, X)])) = 5.
Proof.
  cbv zeta. split; [vm_compute; reflexivity|].
  pose proof (C7_alternation_and_count "room" "p1" "p2" 0
                [(PNum 0, X); (PNum 3, O); (PNum 1, X); (PNum 4, O)]
                (PNum 2, X)) as H.
  destruct H as (_ & Hflip & _ & _ & Hcount);
    [vm_compute; reflexivity|].
  split; [exact Hflip|exact Hcount].
Defined.

(** ** Terminal evaluation *)

Lemma winPatterns_lines :
  winPatterns
  = map (λ r, (3 * r, 3 * r + 1, 3 * r + 2)) [0; 1; 2]      (* rows *)
    ++ map (λ c, (c, c + 3, c + 6)) [0; 1; 2]               (* columns *)
    ++ [(0, 4, 8); (2, 4, 6)].                              (* diagonals *)
Proof. reflexivity. Qed.



(** ** Terminal flags *)

Lemma terminal_false_iff g :
  terminal g = false ↔ winner g = None ∧ isDraw g = false.
Proof.
  unfold terminal. destruct (winner g) as [w|], (isDraw g); simpl;
    split; try done; by intros [? ?].
Qed.

(** C9: in every state a session reaches under any sequence of move
    submissions, the winner and the draw flag are not both set; once the
    winner is set it stays and the draw flag stays unset, and once the
    draw flag is set it stays and the winner stays unset. *)
Theorem C9_flags_exclusive (room player1 player2 : string) (now : Z)
    (mvs more : list (Position * Marker)) :
  let g := run (newGame room player1 player2 now) mvs in
  let g' := run g more in
  ¬ (is_Some (winner g) ∧ isDraw g = true)
  ∧ (is_Some (winner g) → winner g' = winner g ∧ isDraw g' = false)
  ∧ (isDraw g = true → isDraw g' = true ∧ winner g' = None).
Proof.
  intros g g'.
  assert (Hwf : well_formed g)
    by apply well_formed_run, well_formed_newGame.
  destruct (wf_flags _ Hwf) as [Hw|Hd].
  - split; [|split].
    + rewrite Hw. intros [[? ?] _]. done.
    + rewrite Hw. intros [? ?]. done.
    + intros Hd. subst g'. rewrite run_terminal; [done|].
      unfold terminal. rewrite Hd. apply orb_true_r.
  - split; [|split].
    + rewrite Hd. intros [_ ?]. done.
    + intros Hs. subst g'. rewrite run_terminal; [done|].
      unfold terminal. by rewrite bool_decide_eq_true_2.
    + rewrite Hd. done.
Qed.

Lemma C9_flags_exclusive_witness :
  let g := run (newGame "room" "p1" "p2" 0)
               [(PNum 0, X); (PNum 3, O); (PNum 1, X); (PNum 4, O);
                (PNum 2, X)] in
  is_Some (winner g) ∧ isDraw (run g [(PNum 5, O); (PNum 6, X)]) = false.
Proof.
  cbv zeta.
  assert (Hs : is_Some (winner (run (newGame "room" "p1" "p2" 0)
               [(PNum 0, X); (PNum 3, O); (PNum 1, X); (PNum 4, O);
                (PNum 2, X)]))) by (vm_compute; eauto).
  split; [exact Hs|].
  exact (proj2 (proj1 (proj2 (C9_flags_exclusive "room" "p1" "p2" 0
           [(PNum 0, X); (PNum 3, O); (PNum 1, X); (PNum 4, O); (PNum 2, X)]
           [(PNum 5, O); (PNum 6, X)])) Hs)).
Defined.

(** ** Bounds of the board *)







(** ** The [makeMove] handler *)

Lemma makeMove_role_irrelevant g position s1 s2 :
  (makeMove g position s1).2 = (makeMove g position s2).2.
Proof.
  unfold makeMove. destruct (key_throws position); [done|].
  by destruct (negb (reads_null (board g) position)
               || bool_decide (is_Some (winner g)) || isDraw g).
Qed.

Lemma onMakeMove_not_your_turn s socket room position now game player :
  games s !! room = Some game → players s !! socket = Some player →
  p_symbol player ≠ currentTurn game →
  onMakeMove s socket room position now
  = (emit (ToSocket socket) (ErrorMessage "Not your turn") s, Returned ()).
Proof.
  intros Hg Hp Hne. unfold onMakeMove. rewrite Hg, Hp.
  destruct (Marker_eqb (currentTurn game) (p_symbol player)) eqn:E; [|done].
  apply Marker_eqb_eq in E. congruence.
Qed.





(** C2, as stated, fails: on a fresh game, where X is to move, a direct
    call of [makeMove] for O on cell 0 is accepted and writes O's marker
    into the board. *)
Lemma C2_makeMove_accepts_inactive_role :
  let g := newGame "room" "p1" "p2" 0 in
  let r := makeMove g (PNum 0) O in
  currentTurn g = X ∧ r.2 = Returned true ∧ board r.1 !! 0 = Some (Mark O).
Proof. vm_compute. auto. Qed.

(** C2, amended: a move request whose role is not the session's active
    role is rejected by the handler before it calls [makeMove], with the
    notice "Not your turn" sent to the requester and nothing written;
    [makeMove] itself does not look at the role: it accepts or rejects
    the call exactly as it would for the active role. *)
Theorem C2_role_checked_by_handler (s : Server) (socket room : string)
    (position : Position) (now : Z) (game : Game) (player : PlayerInfo) :
  games s !! room = Some game → players s !! socket = Some player →
  p_symbol player ≠ currentTurn game →
  onMakeMove s socket room position now
  = (emit (ToSocket socket) (ErrorMessage "Not your turn") s, Returned ())
  ∧ games (onMakeMove s socket room position now).1 = games s
  ∧ (makeMove game position (p_symbol player)).2
    = (makeMove game position (currentTurn game)).2.
Proof.
  intros Hg Hp Hne.
  rewrite (onMakeMove_not_your_turn _ _ _ _ _ _ _ Hg Hp Hne).
  split; [done|]. split; [done|]. apply makeMove_role_irrelevant.
Qed.

Lemma C2_role_checked_by_handler_witness :
  games one_session !! "A" = Some (newGame "A" "a2" "a1" 0)
  ∧ players one_session !! "a1" = Some (mkPlayerInfo "A" O "Player2")
  ∧ onMakeMove one_session "a1" "A" (PNum 0) 5
    = (emit (ToSocket "a1") (ErrorMessage "Not your turn") one_session,
       Returned ()).
Proof.
  assert (Hg : games one_session !! "A" = Some (newGame "A" "a2" "a1" 0))
    by (vm_compute; reflexivity).
  assert (Hp : players one_session !! "a1"
               = Some (mkPlayerInfo "A" O "Player2"))
    by (vm_compute; reflexivity).
  split; [exact Hg|]. split; [exact Hp|].
  refine (proj1 (C2_role_checked_by_handler one_session "a1" "A" (PNum 0) 5
                   _ _ Hg Hp _)).
  vm_compute. discriminate.
Defined.



(** Every game the server stores is one a session can hold. *)
Lemma step_games_well_formed (s : Server) (e : Event) :
  map_Forall (λ _ g, well_formed g) (games s) →
  map_Forall (λ _ g, well_formed g) (games (step s e)).
Proof.
  intros Hall. destruct e as [socket room now|socket room position now
                              |socket|]; simpl.
  - unfold onFindGame. destruct (waitingPlayers s); simpl; [done|].
    apply map_Forall_insert_2; [apply well_formed_newGame|done].
  - unfold onMakeMove.
    destruct (games s !! room) as [game|] eqn:Hg; [|done].
    destruct (players s !! socket) as [player|]; [|done].
    destruct (negb _); [done|].
    pose proof (well_formed_makeMove game position (p_symbol player)
                  (Hall _ _ Hg)) as Hwf.
    destruct (makeMove game position (p_symbol player))
      as [game' [[|]|]]; [|done|done].
    assert (map_Forall (λ _ g, well_formed g) (<[room:=game']> (games s)))
      by (by apply map_Forall_insert_2).
    by destruct (terminal game').
  - unfold onDisconnect. simpl.
    destruct (players s !! socket) as [player|]; simpl; [|done].
    destruct (String.eqb _ _); simpl; [done|].
    destruct (games s !! p_roomId player); simpl; [|done].
    by apply map_Forall_delete.
  - destruct (timers s) as [|t rest]; simpl; [done|].
    by apply map_Forall_delete.
Qed.

Lemma steps_games_well_formed (es : list Event) :
  map_Forall (λ _ g, well_formed g) (games (steps initialServer es)).
Proof.
  induction es as [|e es IH] using rev_ind.
  - apply map_Forall_empty.
  - unfold steps in *. rewrite foldl_app. by apply step_games_well_formed.
Qed.


(** ** Sessions are not isolated from one another *)

(** C3: the claim is what the README promises and the [disconnect]
    handler does (it resolves the session from the sender's own entry in
    [players]); the [makeMove] handler resolves it from the [roomId] of
    the payload and never compares it with the sender's entry.  Socket
    [a2] belongs to room ["A"] only, yet its request naming room ["B"]
    writes X into cell 0 of ["B"], flips the turn of ["B"] and raises its
    move counter. *)
Theorem C3_foreign_session_is_mutated :
  let s := two_sessions in
  let s' := step s (MakeMove "a2" "B" (PNum 0) 5) in
  players s !! "a2" = Some (mkPlayerInfo "A" X "Player1")
  ∧ games s !! "B" = Some (newGame "B" "b2" "b1" 0)
  ∧ board <$> games s' !! "B" = Some (<[0:=Mark X]> (replicate 9 Null))
  ∧ currentTurn <$> games s' !! "B" = Some O
  ∧ moveCount <$> games s' !! "B" = Some 1
  ∧ games s' !! "B" ≠ games s !! "B".
Proof. vm_compute. repeat split; congruence. Qed.

(** ** Disconnect after a terminal move *)

(** C4: one session is created, X wins it (the handler lowers
    [activeGames] from 1 to 0 and defers the removal of the game by 100
    ms), and O disconnects before the deferred callback runs.  The
    [disconnect] handler finds the game still in [games] and lowers
    [activeGames] again: the counter ends at -1 for a single session. *)
Theorem C4_active_games_decremented_twice :
  let s1 := steps one_session x_wins_A in
  let s2 := step s1 (Disconnect "a1") in
  activeGames (metrics one_session) = 1%Z
  ∧ activeGames (metrics s1) = 0%Z
  ∧ terminal <$> games s1 !! "A" = Some true
  ∧ length (timers s1) = 1
  ∧ outbox s2 = outbox s1 ++ [(ToSocket "a2", OpponentDisconnected)]
  ∧ games s2 !! "A" = None
  ∧ players s2 !! "a1" = None ∧ players s2 !! "a2" = None
  ∧ activeGames (metrics s2) = (-1)%Z
  ∧ totalGames (metrics s2) = 1%Z
  ∧ activeGames (metrics (step s2 Timeout)) = (-1)%Z.
Proof. vm_compute. repeat split. Qed.

(** ** Average duration *)

Lemma sum_snoc (ds : list Q) (d : Q) :
  (foldr Qplus 0 (ds ++ [d]) == foldr Qplus 0 ds + d)%Q.
Proof.
  induction ds as [|x ds IH]; simpl.
  - ring.
  - rewrite IH. ring.
Qed.

Lemma mean_times_length (ds : list Q) :
  (mean ds * inject_Z (Z.of_nat (length ds)) == foldr Qplus 0 ds)%Q.
Proof.
  unfold mean. destruct ds as [|x ds].
  - simpl. reflexivity.
  - field. change 0%Q with (inject_Z 0). rewrite inject_Z_injective.
    simpl. lia.
Qed.

(** In exact arithmetic the update is the running mean as long as
    [totalGames] is the number of sessions completed so far, this one
    included: that is, as long as no session is created before the
    previous one has completed. *)
Lemma gameEnded_running_mean (m : Metrics) (ds : list Q) (d : Q) :
  totalGames m = Z.of_nat (S (length ds)) →
  (averageGameDuration m == mean ds)%Q →
  (averageGameDuration (gameEnded m d) == mean (ds ++ [d]))%Q.
Proof.
  intros Hn Havg. unfold gameEnded. simpl averageGameDuration.
  rewrite Hn, Havg.
  replace (Z.of_nat (S (length ds)) - 1)%Z with (Z.of_nat (length ds)) by lia.
  rewrite mean_times_length. unfold mean at 1.
  rewrite sum_snoc, length_app. simpl length.
  replace (length ds + 1) with (S (length ds)) by lia. reflexivity.
Qed.

(** C5: two sessions are created and the first one to finish lasted two
    seconds.  The handler divides by [totalGames], the number of sessions
    created, so it reports an average of one second where the mean of the
    completed sessions' durations is two. *)
Theorem C5_average_divides_by_created :
  let s := steps two_sessions x_wins_A in
  totalGames (metrics s) = 2%Z
  ∧ map t_duration (timers s) = [(inject_Z 2000 / 1000)%Q]
  ∧ (averageGameDuration (metrics s) == 1)%Q
  ∧ (mean [(inject_Z 2000 / 1000)%Q] == 2)%Q
  ∧ ¬ (averageGameDuration (metrics s) == mean [(inject_Z 2000 / 1000)%Q])%Q.
Proof. vm_compute. repeat split; congruence. Qed.

(** * Further properties of the [Game] class *)

(** ** Markers are never overwritten *)

Lemma makeMove_keeps_markers g position symbol j m :
  board g !! j = Some (Mark m) →
  board (makeMove g position symbol).1 !! j = Some (Mark m).
Proof.
  intros Hj. destruct (makeMove_cases g position symbol) as [Hok|Hsame].
  - destruct (makeMove_accepted_fields _ _ _ Hok)
      as (i & _ & Hnull & _ & _ & Hb & _).
    rewrite Hb, list_lookup_insert_ne; [done|]. intros ->. congruence.
  - by rewrite Hsame.
Qed.

(** X1: whatever calls of [makeMove] follow, accepted or not and by
    whichever role, a cell that holds a marker keeps that marker. *)
Theorem run_keeps_markers (g : Game) (mvs : list (Position * Marker))
    (j : nat) (m : Marker) :
  board g !! j = Some (Mark m) → board (run g mvs) !! j = Some (Mark m).
Proof.
  revert g. induction mvs as [|mv mvs IH]; intros g Hj; [done|].
  simpl. apply IH. by apply makeMove_keeps_markers.
Qed.

Lemma run_keeps_markers_witness :
  let g := run (newGame "room" "p1" "p2" 0) [(PNum 4, X)] in
  board g !! 4 = Some (Mark X)
  ∧ board (run g [(PNum 4, O); (PStr "4", O); (PNum 0, O)]) !! 4
    = Some (Mark X).
Proof.
  cbv zeta.
  assert (H : board (run (newGame "room" "p1" "p2" 0) [(PNum 4, X)]) !! 4
              = Some (Mark X)) by (vm_compute; reflexivity).
  split; [exact H|].
  exact (run_keeps_markers _ [(PNum 4, O); (PStr "4", O); (PNum 0, O)] 4 X H).
Defined.

(** ** The flags follow the board *)

Lemma settled_newGame room player1 player2 now :
  settled (newGame room player1 player2 now).
Proof. split; vm_compute; reflexivity. Qed.

Lemma settled_makeMove g position symbol :
  settled g → settled (makeMove g position symbol).1.
Proof.
  intros Hs. destruct (makeMove_cases g position symbol) as [Hok|Hsame].
  - destruct (makeMove_accepted_fields _ _ _ Hok)
      as (i & _ & _ & _ & _ & _ & _ & _ & Hw & Hd).
    by split.
  - by rewrite Hsame.
Qed.

Lemma settled_run g mvs : settled g → settled (run g mvs).
Proof.
  revert g. induction mvs as [|mv mvs IH]; intros g Hs; [done|].
  simpl. apply IH. by apply settled_makeMove.
Qed.

Lemma settled_terminal g :
  well_formed g → settled g →
  terminal g = true
  ↔ (∃ p m, p ∈ winPatterns ∧ line_won (board g) p m)
    ∨ filled (board g) = 9.
Proof.
  intros Hwf [Hw Hd]. unfold terminal. rewrite Hw, Hd, (wf_count _ Hwf).
  destruct (scan_patterns (board g) winPatterns) as [m|] eqn:Hscan.
  - split; [intros _|done]. left.
    apply scan_patterns_Some in Hscan
      as (before & p & after & E & _ & Hwon).
    exists p, m. split; [|done]. rewrite E. set_solver.
  - simpl. rewrite Nat.eqb_eq. split; [by right|].
    intros [(p & m & Hin & Hwon)|H9]; [|done].
    apply scan_patterns_None in Hscan. rewrite Forall_forall in Hscan.
    by destruct (Hscan p Hin m).
Qed.

(** X2: however a fresh game is driven, its move counter never passes 9,
    and it carries a terminal flag exactly when some pattern of
    [winPatterns] is filled by one marker or no cell is left empty. *)
Theorem game_over_iff_line_or_full (room player1 player2 : string)
    (now : Z) (mvs : list (Position * Marker)) :
  let g := run (newGame room player1 player2 now) mvs in
  moveCount g ≤ 9
  ∧ (terminal g = true
     ↔ (∃ p m, p ∈ winPatterns ∧ line_won (board g) p m)
       ∨ filled (board g) = 9).
Proof.
  intros g.
  assert (Hwf : well_formed g)
    by apply well_formed_run, well_formed_newGame.
  assert (Hs : settled g) by apply settled_run, settled_newGame.
  split; [|by apply settled_terminal].
  rewrite (wf_count _ Hwf), <- (wf_length _ Hwf). apply length_filter.
Qed.

(** ** Who wins *)

Lemma line_won_insert (bd : list Cell) (i : nat) (s m : Marker)
    (p : nat * nat * nat) :
  bd !! i = Some Null → line_open bd p →
  line_won (<[i:=Mark s]> bd) p m → m = s.
Proof.
  intros Hnull Hopen (Ha & Hb & Hc).
  assert (Hlt : i < length bd) by (by eapply lookup_lt_Some).
  assert (Hat : ∀ j, <[i:=Mark s]> bd !! j = Some (Mark m) →
                     m = s ∨ bd !! j = Some (Mark m)).
  { intros j Hj. destruct (decide (i = j)) as [->|Hne].
    - rewrite list_lookup_insert_eq in Hj by done. left. congruence.
    - rewrite list_lookup_insert_ne in Hj by done. by right. }
  destruct (Hat _ Ha) as [?|Ha']; [done|].
  destruct (Hat _ Hb) as [?|Hb']; [done|].
  destruct (Hat _ Hc) as [?|Hc']; [done|].
  by destruct (Hopen m).
Qed.

Lemma makeMove_winner_is_mover g position symbol m :
  settled g → (makeMove g position symbol).2 = Returned true →
  winner (makeMove g position symbol).1 = Some m → m = symbol.
Proof.
  intros [Hw0 _] Hok Hwin.
  destruct (makeMove_accepted_fields _ _ _ Hok)
    as (i & _ & Hnull & Hnone & _ & Hb & _ & _ & Hw & _).
  rewrite Hw in Hwin.
  apply scan_patterns_Some in Hwin as (before & p & after & E & _ & Hwon).
  rewrite Hnone in Hw0. symmetry in Hw0.
  apply scan_patterns_None in Hw0. rewrite Forall_forall in Hw0.
  rewrite Hb in Hwon. eapply line_won_insert; [done| |done].
  apply Hw0. rewrite E. set_solver.
Qed.

(** X3: when an accepted move on a game driven from a fresh one sets the
    winner, the winner is the symbol that move wrote, whichever pattern
    the loop of [checkWinner] meets first. *)
Theorem winner_is_last_mover (room player1 player2 : string) (now : Z)
    (mvs : list (Position * Marker)) (position : Position)
    (symbol m : Marker) :
  let g := run (newGame room player1 player2 now) mvs in
  (makeMove g position symbol).2 = Returned true →
  winner (makeMove g position symbol).1 = Some m →
  m = symbol.
Proof.
  intros g. apply makeMove_winner_is_mover.
  apply settled_run, settled_newGame.
Qed.

Lemma winner_is_last_mover_witness :
  let g := run (newGame "room" "p1" "p2" 0)
               [(PNum 0, X); (PNum 3, O); (PNum 1, X); (PNum 4, O)] in
  (makeMove g (PNum 2) X).2 = Returned true
  ∧ winner (makeMove g (PNum 2) X).1 = Some X
  ∧ X = X.
Proof.
  cbv zeta.
  assert (Hok : (makeMove (run (newGame "room" "p1" "p2" 0)
                   [(PNum 0, X); (PNum 3, O); (PNum 1, X); (PNum 4, O)])
                   (PNum 2) X).2 = Returned true) by (vm_compute; reflexivity).
  assert (Hw : winner (makeMove (run (newGame "room" "p1" "p2" 0)
                   [(PNum 0, X); (PNum 3, O); (PNum 1, X); (PNum 4, O)])
                   (PNum 2) X).1 = Some X) by (vm_compute; reflexivity).
  split; [exact Hok|]. split; [exact Hw|].
  exact (winner_is_last_mover "room" "p1" "p2" 0
           [(PNum 0, X); (PNum 3, O); (PNum 1, X); (PNum 4, O)]
           (PNum 2) X X Hok Hw).
Defined.

(** * Further properties of the server *)

(** ** Reasoning over every run of the event loop *)

Lemma serveAll_snoc s inb i :
  serveAll s (inb ++ [i]) = serve (serveAll s inb) i.
Proof. unfold serveAll. by rewrite foldl_app. Qed.

Lemma serveAll_invariant (P : Server → Prop) :
  P initialServer → (∀ s i, P s → P (serve s i)) →
  ∀ inb, P (serveAll initialServer inb).
Proof.
  intros H0 Hstep inb. induction inb as [|i inb IH] using rev_ind; [done|].
  rewrite serveAll_snoc. by apply Hstep.
Qed.

(** ** What a move request can touch *)

Lemma onMakeMove_touches (s : Server) (socket room : string)
    (position : Position) (now : Z) :
  let r := onMakeMove s socket room position now in
  players r.1 = players s
  ∧ waitingPlayers r.1 = waitingPlayers s
  ∧ (∀ r', r' ≠ room → games r.1 !! r' = games s !! r')
  ∧ dom (games r.1) = dom (games s)
  ∧ totalGames (metrics r.1) = totalGames (metrics s)
  ∧ (r.2 = Returned () → ∃ msg, outbox r.1 = outbox s ++ [msg])
  ∧ (r.2 = Thrown → r.1 = s ∧ key_throws position = true)
  ∧ (key_throws position = false → r.2 = Returned ()).
Proof.
  unfold onMakeMove.
  destruct (games s !! room) as [game|] eqn:Hg;
    [|simpl; split_and!; eauto; done].
  destruct (players s !! socket) as [player|];
    [|simpl; split_and!; eauto; done].
  destruct (negb _); [simpl; split_and!; eauto; done|].
  pose proof (makeMove_thrown_iff game position (p_symbol player)) as Hthrow.
  destruct (makeMove game position (p_symbol player)) as [game' [[|]|]];
    simpl in Hthrow.
  - assert (Hdom : dom (<[room:=game']> (games s)) = dom (games s))
      by (apply dom_insert_lookup_L; eauto).
    assert (Hne : ∀ r, r ≠ room →
                       <[room:=game']> (games s) !! r = games s !! r)
      by (intros r Hr; by rewrite lookup_insert_ne).
    destruct (terminal game'); simpl; split_and!; eauto; done.
  - simpl; split_and!; eauto; done.
  - simpl; split_and!; eauto; try done.
    + intros _. split; [done|]. by apply Hthrow.
    + intros Hkey. destruct Hthrow as [Hthrow _].
      rewrite Hthrow in Hkey; done.
Qed.

(** X4: a [makeMove] request that carries a payload, accepted or not,
    leaves [players] and the waiting queue as they are, changes no game
    but the one its [roomId] names, neither adds a room to [games] nor
    removes one, and leaves [totalGames] alone.  When the handler
    returns, it has emitted exactly one message; it returns whenever the
    conversion of the position to a property key does not throw.  When
    it is left by an exception, the position is one whose conversion
    throws, nothing was emitted and nothing was changed. *)
Theorem onMakeMove_frame (s : Server) (socket room : string)
    (position : Position) (now : Z) :
  let r := onMakeMove s socket room position now in
  players r.1 = players s
  ∧ waitingPlayers r.1 = waitingPlayers s
  ∧ (∀ r', r' ≠ room → games r.1 !! r' = games s !! r')
  ∧ dom (games r.1) = dom (games s)
  ∧ totalGames (metrics r.1) = totalGames (metrics s)
  ∧ (r.2 = Returned () → ∃ msg, outbox r.1 = outbox s ++ [msg])
  ∧ (r.2 = Thrown → r.1 = s ∧ key_throws position = true)
  ∧ (key_throws position = false → r.2 = Returned ()).
Proof. apply onMakeMove_touches. Qed.

Lemma onMakeMove_frame_witness :
  key_throws (PNum 4) = false
  ∧ (onMakeMove one_session "a2" "A" (PNum 4) 50).2 = Returned ()
  ∧ ∃ msg, outbox (onMakeMove one_session "a2" "A" (PNum 4) 50).1
           = outbox one_session ++ [msg].
Proof.
  assert (Hkey : key_throws (PNum 4) = false) by reflexivity.
  destruct (onMakeMove_frame one_session "a2" "A" (PNum 4) 50)
    as (_ & _ & _ & _ & _ & Hmsg & _ & Hret).
  split; [exact Hkey|]. split; [exact (Hret Hkey)|].
  exact (Hmsg (Hret Hkey)).
Defined.

(** ** Games are played in turn *)

Lemma count_marker_insert (bd : list Cell) (i : nat) (s m : Marker) :
  bd !! i = Some Null →
  count_marker m (<[i:=Mark s]> bd)
  = count_marker m bd + (if decide (m = s) then 1 else 0).
Proof.
  unfold count_marker. revert i.
  induction bd as [|c bd IH]; intros [|i] H; try done.
  - injection H as ->. cbn [insert list_insert].
    rewrite !filter_cons.
    destruct (decide (Mark s = Mark m)) as [E|E], (decide (m = s)) as [F|F],
      (decide (Null = Mark m)); simpl; try done; try lia; congruence.
  - specialize (IH i H). cbn [insert list_insert].
    change (list_insert i (Mark s) bd) with (<[i:=Mark s]> bd).
    rewrite !filter_cons.
    destruct (decide (c = Mark m)); simpl; [f_equal|]; exact IH.
Qed.

Lemma played_in_turn_newGame room player1 player2 now :
  played_in_turn (newGame room player1 player2 now).
Proof.
  split.
  - apply well_formed_newGame.
  - apply settled_newGame.
  - vm_compute. reflexivity.
  - intros m. simpl. done.
Qed.

Lemma played_in_turn_makeMove g position :
  played_in_turn g →
  played_in_turn (makeMove g position (currentTurn g)).1.
Proof.
  intros [Hwf Hs Hbal Hwin].
  destruct (makeMove_cases g position (currentTurn g)) as [Hok|Hsame].
  - destruct (makeMove_accepted_fields _ _ _ Hok)
      as (i & _ & Hnull & _ & _ & Hb & _ & Ht & _).
    split.
    + by apply well_formed_makeMove.
    + by apply settled_makeMove.
    + rewrite Hb, Ht, !count_marker_insert by done. rewrite Hbal.
      destruct (currentTurn g); simpl;
        repeat (destruct (decide _); try done); lia.
    + intros m Hm. rewrite Ht.
      rewrite (makeMove_winner_is_mover _ _ _ _ Hs Hok Hm).
      by destruct (currentTurn g).
  - by rewrite Hsame.
Qed.

Lemma serve_games_played_in_turn (s : Server) (i : Inbound) :
  map_Forall (λ _ g, played_in_turn g) (games s) →
  map_Forall (λ _ g, played_in_turn g) (games (serve s i)).
Proof.
  intros Hall.
  destruct i as [socket n|[socket room now|socket room position now
                            |socket|]]; simpl; [done|..].
  - unfold onFindGame. destruct (waitingPlayers s); simpl; [done|].
    apply map_Forall_insert_2; [apply played_in_turn_newGame|done].
  - unfold onMakeMove.
    destruct (games s !! room) as [game|] eqn:Hg; [|done].
    destruct (players s !! socket) as [player|]; [|done].
    destruct (Marker_eqb (currentTurn game) (p_symbol player)) eqn:E;
      [|done].
    apply Marker_eqb_eq in E. simpl. rewrite <- E.
    pose proof (played_in_turn_makeMove game position (Hall _ _ Hg)) as Hp.
    destruct (makeMove game position (currentTurn game))
      as [game' [[|]|]]; [|done|done].
    assert (map_Forall (λ _ g, played_in_turn g)
                       (<[room:=game']> (games s)))
      by (by apply map_Forall_insert_2).
    by destruct (terminal game').
  - unfold onDisconnect. simpl.
    destruct (players s !! socket) as [player|]; simpl; [|done].
    destruct (String.eqb _ _); simpl; [done|].
    destruct (games s !! p_roomId player); simpl; [|done].
    by apply map_Forall_delete.
  - destruct (timers s) as [|t rest]; simpl; [done|].
    by apply map_Forall_delete.
Qed.

(** X5: whatever the clients send, every game the server holds has nine
    cells, a move counter equal to the number of markers, as many X as O
    when X is to move and one more X when O is to move, and a winner, if
    any, who is the role that is not to move. *)
Theorem stored_games_played_in_turn (inb : list Inbound) (room : string)
    (g : Game) :
  games (serveAll initialServer inb) !! room = Some g →
  length (board g) = 9
  ∧ moveCount g = filled (board g)
  ∧ count_marker X (board g)
    = count_marker O (board g)
      + match currentTurn g with X => 0 | O => 1 end
  ∧ ∀ m, winner g = Some m → m = other (currentTurn g).
Proof.
  intros Hg.
  assert (Hall : map_Forall (λ _ g, played_in_turn g)
                   (games (serveAll initialServer inb))).
  { apply (serveAll_invariant
             (λ s, map_Forall (λ _ g, played_in_turn g) (games s))).
    - apply map_Forall_empty.
    - apply serve_games_played_in_turn. }
  destruct (Hall _ _ Hg) as [Hwf _ Hbal Hwin].
  repeat split; try done; apply Hwf.
Qed.

Lemma stored_games_played_in_turn_witness :
  let inb := [Handled (FindGame "a1" "A" 0); Handled (FindGame "a2" "A" 0);
              Handled (MakeMove "a2" "A" (PNum 4) 100)] in
  let g := (makeMove (newGame "A" "a2" "a1" 0) (PNum 4) X).1 in
  games (serveAll initialServer inb) !! "A" = Some g
  ∧ count_marker X (board g) = count_marker O (board g) + 1.
Proof.
  cbv zeta.
  assert (Hg : games (serveAll initialServer
                 [Handled (FindGame "a1" "A" 0);
                  Handled (FindGame "a2" "A" 0);
                  Handled (MakeMove "a2" "A" (PNum 4) 100)]) !! "A"
               = Some (makeMove (newGame "A" "a2" "a1" 0) (PNum 4) X).1)
    by (vm_compute; reflexivity).
  split; [exact Hg|].
  exact (proj1 (proj2 (proj2 (stored_games_played_in_turn _ _ _ Hg)))).
Defined.

(** ** The waiting queue *)

Lemma remove_first_length x l : length (remove_first x l) ≤ length l.
Proof.
  induction l as [|y l IH]; simpl; [done|].
  destruct (String.eqb x y); simpl; lia.
Qed.

Lemma remove_first_absent x l : x ∉ l → remove_first x l = l.
Proof.
  induction l as [|y l IH]; simpl; [done|].
  intros [Hne Hnin]%not_elem_of_cons.
  destruct (String.eqb_spec x y); [done|]. by rewrite IH.
Qed.

Lemma remove_first_NoDup x l : NoDup l → x ∉ remove_first x l.
Proof.
  induction 1 as [|y l Hy Hnd IH]; simpl; [apply not_elem_of_nil|].
  destruct (String.eqb_spec x y) as [->|Hne]; [done|].
  apply not_elem_of_cons. by split.
Qed.

Lemma step_waitingPlayers_length (s : Server) (i : Inbound) :
  length (waitingPlayers s) ≤ 1 → length (waitingPlayers (serve s i)) ≤ 1.
Proof.
  intros Hlen.
  destruct i as [socket n|[socket room now|socket room position now
                            |socket|]]; simpl; [done|..].
  - unfold onFindGame. destruct (waitingPlayers s) as [|opponent rest];
      simpl in *; lia.
  - by rewrite (proj1 (proj2 (onMakeMove_touches s socket room position now))).
  - unfold onDisconnect. simpl.
    pose proof (remove_first_length socket (waitingPlayers s)).
    destruct (players s !! socket) as [player|]; simpl; [|lia].
    destruct (String.eqb _ _); simpl; [lia|].
    destruct (games s !! p_roomId player); simpl; lia.
  - by destruct (timers s).
Qed.

(** X6: at every moment at most one socket is waiting for an opponent,
    so the second request of any two is matched with the first. *)
Theorem at_most_one_waiting (inb : list Inbound) :
  length (waitingPlayers (serveAll initialServer inb)) ≤ 1.
Proof.
  apply (serveAll_invariant (λ s, length (waitingPlayers s) ≤ 1)).
  - simpl. lia.
  - apply step_waitingPlayers_length.
Qed.

(** ** Counters *)

Lemma step_metrics_bounds (s : Server) (i : Inbound) :
  (0 ≤ totalGames (metrics s)
   ∧ activeGames (metrics s) ≤ totalGames (metrics s)
   ∧ Z.of_nat (size (games s)) ≤ totalGames (metrics s))%Z →
  (0 ≤ totalGames (metrics (serve s i))
   ∧ activeGames (metrics (serve s i)) ≤ totalGames (metrics (serve s i))
   ∧ Z.of_nat (size (games (serve s i)))
     ≤ totalGames (metrics (serve s i)))%Z.
Proof.
  intros (H0 & Hact & Hsize).
  destruct i as [socket n|[socket room now|socket room position now
                            |socket|]]; simpl; [done|..].
  - unfold onFindGame. destruct (waitingPlayers s) as [|opponent rest];
      simpl; [done|].
    rewrite map_size_insert. destruct (games s !! room); simpl; lia.
  - unfold onMakeMove.
    destruct (games s !! room) as [game|] eqn:Hg; [|done].
    destruct (players s !! socket) as [player|]; [|done].
    destruct (negb _); [done|].
    destruct (makeMove game position (p_symbol player))
      as [game' [[|]|]]; [|done|done].
    assert (Hsz : size (<[room:=game']> (games s)) = size (games s))
      by (apply map_size_insert_Some; eauto).
    destruct (terminal game'); simpl; rewrite Hsz; lia.
  - unfold onDisconnect. simpl.
    destruct (players s !! socket) as [player|]; simpl; [|done].
    destruct (String.eqb _ _); simpl; [done|].
    destruct (games s !! p_roomId player) eqn:Hg; simpl; [|done].
    rewrite map_size_delete, Hg. simpl. lia.
  - destruct (timers s) as [|t rest]; simpl; [done|].
    rewrite map_size_delete. destruct (games s !! t_roomId t); simpl; lia.
Qed.

(** X7: [totalGames] is never negative, [activeGames] never exceeds it
    and [games] never holds more games than were created; so whenever a
    game is in [games], [totalGames] is at least 1 and the division of
    the terminal branch is not a division by zero. *)
Theorem metrics_bounds (inb : list Inbound) :
  let s := serveAll initialServer inb in
  (0 ≤ totalGames (metrics s))%Z
  ∧ (activeGames (metrics s) ≤ totalGames (metrics s))%Z
  ∧ (Z.of_nat (size (games s)) ≤ totalGames (metrics s))%Z
  ∧ ∀ room, is_Some (games s !! room) → (1 ≤ totalGames (metrics s))%Z.
Proof.
  intros s.
  assert (H : (0 ≤ totalGames (metrics s)
               ∧ activeGames (metrics s) ≤ totalGames (metrics s)
               ∧ Z.of_nat (size (games s)) ≤ totalGames (metrics s))%Z).
  { subst s. apply (serveAll_invariant (λ s,
      (0 ≤ totalGames (metrics s)
       ∧ activeGames (metrics s) ≤ totalGames (metrics s)
       ∧ Z.of_nat (size (games s)) ≤ totalGames (metrics s))%Z)).
    - vm_compute. repeat split; discriminate.
    - apply step_metrics_bounds. }
  destruct H as (H0 & Hact & Hsize). split_and!; try done.
  intros room Hroom.
  pose proof (map_size_ne_0_lookup_2 _ _ Hroom). lia.
Qed.

Lemma metrics_bounds_witness :
  let s := serveAll initialServer
             [Handled (FindGame "a1" "A" 0); Handled (FindGame "a2" "A" 0)] in
  is_Some (games s !! "A") ∧ (1 ≤ totalGames (metrics s))%Z.
Proof.
  cbv zeta.
  assert (H : is_Some (games (serveAll initialServer
                [Handled (FindGame "a1" "A" 0);
                 Handled (FindGame "a2" "A" 0)]) !! "A"))
    by (vm_compute; eauto).
  split; [exact H|].
  exact (proj2 (proj2 (proj2 (metrics_bounds
           [Handled (FindGame "a1" "A" 0); Handled (FindGame "a2" "A" 0)])))
           "A" H).
Defined.

Lemma step_connections (s : Server) (e : Event) :
  totalConnections (metrics (step s e)) = totalConnections (metrics s)
  ∧ peakConnections (metrics (step s e)) = peakConnections (metrics s).
Proof.
  destruct e as [socket room now|socket room position now|socket|]; simpl.
  - unfold onFindGame. by destruct (waitingPlayers s).
  - unfold onMakeMove.
    destruct (games s !! room) as [game|]; [|done].
    destruct (players s !! socket) as [player|]; [|done].
    destruct (negb _); [done|].
    destruct (makeMove game position (p_symbol player))
      as [game' [[|]|]]; [|done|done]. by destruct (terminal game').
  - unfold onDisconnect. simpl.
    destruct (players s !! socket) as [player|]; simpl; [|done].
    destruct (String.eqb _ _); simpl; [done|].
    by destruct (games s !! p_roomId player).
  - by destruct (timers s).
Qed.

(** X8: [totalConnections] is the number of connections made so far, and
    [peakConnections] is the largest [clientsCount] read at any of them
    (0 before the first): no other handler touches either. *)
Theorem connection_counters (inb : list Inbound) :
  let s := serveAll initialServer inb in
  totalConnections (metrics s) = Z.of_nat (length (clientsCounts inb))
  ∧ (∀ n, n ∈ clientsCounts inb → (n ≤ peakConnections (metrics s))%Z)
  ∧ (peakConnections (metrics s) = 0%Z
     ∨ peakConnections (metrics s) ∈ clientsCounts inb).
Proof.
  induction inb as [|i inb IH] using rev_ind.
  - simpl. split_and!; [done| |by left]. intros n Hn. by inversion Hn.
  - cbv zeta in *. destruct IH as (Htot & Hle & Hpeak).
    rewrite serveAll_snoc. unfold clientsCounts in *. rewrite omap_app.
    destruct i as [socket n|e]; simpl.
    + rewrite length_app. simpl. split_and!.
      * lia.
      * intros k [Hk|Hk]%elem_of_app.
        -- specialize (Hle k Hk). lia.
        -- apply list_elem_of_singleton in Hk as ->. lia.
      * destruct (Z.max_spec (peakConnections
                    (metrics (serveAll initialServer inb))) n)
          as [[_ ->]|[_ ->]].
        -- right. apply elem_of_app. right. by apply list_elem_of_singleton.
        -- destruct Hpeak as [?|?]; [by left|].
           right. apply elem_of_app. by left.
    + destruct (step_connections (serveAll initialServer inb) e)
        as [-> ->].
      rewrite app_nil_r. by split_and!.
Qed.

(** ** Matchmaking *)

(** X9: a [findGame] request that finds another socket at the head of
    the queue takes it off the queue, stores a fresh game under the new
    room id with the requester as X (to move first) and the waiting
    socket as O, records both memberships and no other, counts one more
    game, and sends ['gameStart'] to each of the two. *)
Theorem onFindGame_pairs (s : Server) (socket room opponent : string)
    (rest : list string) (now : Z) :
  waitingPlayers s = opponent :: rest → socket ≠ opponent →
  let s' := onFindGame s socket room now in
  let game := newGame room socket opponent now in
  waitingPlayers s' = rest
  ∧ games s' !! room = Some game
  ∧ (∀ r, r ≠ room → games s' !! r = games s !! r)
  ∧ players s' !! socket = Some (mkPlayerInfo room X "Player1")
  ∧ players s' !! opponent = Some (mkPlayerInfo room O "Player2")
  ∧ (∀ id, id ≠ socket → id ≠ opponent → players s' !! id = players s !! id)
  ∧ totalGames (metrics s') = (totalGames (metrics s) + 1)%Z
  ∧ activeGames (metrics s') = (activeGames (metrics s) + 1)%Z
  ∧ outbox s'
    = outbox s ++ [(ToSocket socket, GameStart room X "Player2" game);
                   (ToSocket opponent, GameStart room O "Player1" game)].
Proof.
  intros Hq Hne. unfold onFindGame. rewrite Hq. simpl. split_and!.
  - done.
  - by rewrite lookup_insert_eq.
  - intros r Hr. by rewrite lookup_insert_ne.
  - rewrite lookup_insert_ne by done. by rewrite lookup_insert_eq.
  - by rewrite lookup_insert_eq.
  - intros id H1 H2. by rewrite !lookup_insert_ne.
  - done.
  - done.
  - by rewrite <- app_assoc.
Qed.

Lemma onFindGame_pairs_witness :
  let s := onFindGame initialServer "a1" "A" 0 in
  waitingPlayers s = ["a1"] ∧ "a2" ≠ "a1"
  ∧ players (onFindGame s "a2" "A" 7) !! "a2"
    = Some (mkPlayerInfo "A" X "Player1").
Proof.
  cbv zeta.
  assert (Hq : waitingPlayers (onFindGame initialServer "a1" "A" 0) = ["a1"])
    by reflexivity.
  assert (Hne : "a2" ≠ "a1") by discriminate.
  split; [exact Hq|]. split; [exact Hne|].
  exact (proj1 (proj2 (proj2 (proj2
           (onFindGame_pairs _ "a2" "A" "a1" [] 7 Hq Hne))))).
Defined.

(** X10: a socket that asks for a game again while it is itself at the
    head of the queue is paired with itself: the game has it on both
    seats and its membership is the one written last (O).  In the state
    this request leaves, where X is to move, a move request of that
    socket for that game, whatever its position, is answered "Not your
    turn" and changes nothing else. *)
Theorem onFindGame_self_match (s : Server) (socket room : string)
    (rest : list string) (now : Z) :
  waitingPlayers s = socket :: rest →
  let s' := onFindGame s socket room now in
  games s' !! room = Some (newGame room socket socket now)
  ∧ players s' !! socket = Some (mkPlayerInfo room O "Player2")
  ∧ ∀ position now',
      onMakeMove s' socket room position now'
      = (emit (ToSocket socket) (ErrorMessage "Not your turn") s',
         Returned ()).
Proof.
  intros Hq s'.
  assert (Hg : games s' !! room = Some (newGame room socket socket now)).
  { subst s'. unfold onFindGame. rewrite Hq. simpl.
    by rewrite lookup_insert_eq. }
  assert (Hp : players s' !! socket = Some (mkPlayerInfo room O "Player2")).
  { subst s'. unfold onFindGame. rewrite Hq. simpl.
    by rewrite lookup_insert_eq. }
  split_and!; [done|done|]. intros position now'.
  by apply (onMakeMove_not_your_turn _ _ _ _ _ _ _ Hg Hp).
Qed.

Lemma onFindGame_self_match_witness :
  let s := onFindGame initialServer "a1" "A" 0 in
  waitingPlayers s = ["a1"]
  ∧ onMakeMove (onFindGame s "a1" "B" 5) "a1" "B" (PNum 0) 9
    = (emit (ToSocket "a1") (ErrorMessage "Not your turn")
            (onFindGame s "a1" "B" 5),
       Returned ()).
Proof.
  cbv zeta.
  assert (Hq : waitingPlayers (onFindGame initialServer "a1" "A" 0) = ["a1"])
    by reflexivity.
  split; [exact Hq|].
  exact (proj2 (proj2 (onFindGame_self_match _ "a1" "B" [] 5 Hq))
           (PNum 0) 9%Z).
Defined.

(** ** Disconnects *)

Lemma onDisconnect_absent (s : Server) (socket : string) :
  players s !! socket = None → socket ∉ waitingPlayers s →
  onDisconnect s socket = s.
Proof.
  intros Hp Hq. unfold onDisconnect. simpl.
  rewrite Hp, (remove_first_absent _ _ Hq). simpl.
  rewrite (delete_id _ _ Hp). by destruct s.
Qed.

Lemma onDisconnect_waitingPlayers (s : Server) (socket : string) :
  waitingPlayers (onDisconnect s socket)
  = remove_first socket (waitingPlayers s).
Proof.
  unfold onDisconnect. simpl.
  destruct (players s !! socket) as [player|]; simpl; [|done].
  destruct (String.eqb _ _); simpl; [done|].
  by destruct (games s !! p_roomId player).
Qed.

Lemma onDisconnect_players (s : Server) (socket : string) :
  players (onDisconnect s socket) !! socket = None.
Proof. unfold onDisconnect. simpl. apply lookup_delete_eq. Qed.

(** X11: when a socket with a membership in a stored game disconnects,
    exactly one message is emitted, ['opponentDisconnected'] to the socket
    on the other seat of that game; the game and both memberships are
    removed, [activeGames] goes down by one, and [totalGames] and the
    pending callbacks are untouched. *)
Theorem onDisconnect_participant (s : Server) (socket : string)
    (player : PlayerInfo) (game : Game) :
  players s !! socket = Some player → p_roomId player ≠ "" →
  games s !! p_roomId player = Some game →
  let opponentId := game_player game (other (p_symbol player)) in
  let s' := onDisconnect s socket in
  outbox s' = outbox s ++ [(ToSocket opponentId, OpponentDisconnected)]
  ∧ games s' = delete (p_roomId player) (games s)
  ∧ players s' = delete socket (delete opponentId (players s))
  ∧ waitingPlayers s' = remove_first socket (waitingPlayers s)
  ∧ activeGames (metrics s') = (activeGames (metrics s) - 1)%Z
  ∧ totalGames (metrics s') = totalGames (metrics s)
  ∧ timers s' = timers s.
Proof.
  intros Hp Hroom Hg. unfold onDisconnect. simpl. rewrite Hp.
  destruct (String.eqb_spec (p_roomId player) ""); [done|].
  simpl. rewrite Hg. simpl. by split_and!.
Qed.

Lemma onDisconnect_participant_witness :
  players one_session !! "a1" = Some (mkPlayerInfo "A" O "Player2")
  ∧ outbox (onDisconnect one_session "a1")
    = outbox one_session ++ [(ToSocket "a2", OpponentDisconnected)].
Proof.
  assert (Hp : players one_session !! "a1"
               = Some (mkPlayerInfo "A" O "Player2"))
    by (vm_compute; reflexivity).
  assert (Hg : games one_session !! "A" = Some (newGame "A" "a2" "a1" 0))
    by (vm_compute; reflexivity).
  split; [exact Hp|].
  refine (proj1 (onDisconnect_participant one_session "a1" _ _ Hp _ Hg)).
  discriminate.
Defined.

(** X12: a disconnect of a socket that has no membership and is not
    waiting changes nothing at all and emits nothing. *)
Theorem onDisconnect_stranger (s : Server) (socket : string) :
  players s !! socket = None → socket ∉ waitingPlayers s →
  onDisconnect s socket = s.
Proof. apply onDisconnect_absent. Qed.

Lemma onDisconnect_stranger_witness :
  players one_session !! "zz" = None
  ∧ ("zz" ∉ waitingPlayers one_session)
  ∧ onDisconnect one_session "zz" = one_session.
Proof.
  assert (Hp : players one_session !! "zz" = None)
    by (vm_compute; reflexivity).
  assert (Hq : "zz" ∉ waitingPlayers one_session)
    by (vm_compute; apply not_elem_of_nil).
  split; [exact Hp|]. split; [exact Hq|].
  exact (onDisconnect_stranger one_session "zz" Hp Hq).
Defined.

(** X13: the clean-up of a disconnect is idempotent: when the socket
    occurs at most once in the queue, a second [disconnect] for it
    changes nothing (no second notice, no second decrement). *)
Theorem onDisconnect_idempotent (s : Server) (socket : string) :
  NoDup (waitingPlayers s) →
  onDisconnect (onDisconnect s socket) socket = onDisconnect s socket.
Proof.
  intros Hnd. apply onDisconnect_absent.
  - apply onDisconnect_players.
  - rewrite onDisconnect_waitingPlayers. by apply remove_first_NoDup.
Qed.

Lemma onDisconnect_idempotent_witness :
  NoDup (waitingPlayers one_session)
  ∧ onDisconnect (onDisconnect one_session "a1") "a1"
    = onDisconnect one_session "a1".
Proof.
  assert (Hnd : NoDup (waitingPlayers one_session))
    by (vm_compute; constructor).
  split; [exact Hnd|].
  exact (onDisconnect_idempotent one_session "a1" Hnd).
Defined.

(** ** Accepted moves and the end of a game *)

(** X14: an accepted move request stores the post-move game under the
    room id and broadcasts it to the room as the one message emitted.
    If the game is not over, counters and pending callbacks are
    untouched; if it is over, [activeGames] goes down by one, the average
    is recomputed from the elapsed seconds and one clean-up callback is
    queued behind those already pending. *)
Theorem onMakeMove_accepted (s : Server) (socket room : string)
    (position : Position) (now : Z) (game : Game) (player : PlayerInfo) :
  games s !! room = Some game → players s !! socket = Some player →
  p_symbol player = currentTurn game →
  (makeMove game position (p_symbol player)).2 = Returned true →
  let game' := (makeMove game position (p_symbol player)).1 in
  let s' := (onMakeMove s socket room position now).1 in
  let gameDuration := (inject_Z (now - startTime game') / 1000)%Q in
  games s' = <[room:=game']> (games s)
  ∧ outbox s' = outbox s ++ [(ToRoom room, GameUpdate game')]
  ∧ (terminal game' = false →
     metrics s' = metrics s ∧ timers s' = timers s)
  ∧ (terminal game' = true →
     metrics s' = gameEnded (metrics s) gameDuration
     ∧ activeGames (metrics s') = (activeGames (metrics s) - 1)%Z
     ∧ timers s'
       = timers s ++ [mkTimer room socket (p_symbol player) game'
                              gameDuration])
  ∧ (onMakeMove s socket room position now).2 = Returned ().
Proof.
  intros Hg Hp Hturn Hok. unfold onMakeMove. rewrite Hg, Hp.
  destruct (Marker_eqb (currentTurn game) (p_symbol player)) eqn:E.
  - simpl.
    destruct (makeMove game position (p_symbol player)) as [game' ok].
    simpl in *. subst ok.
    destruct (terminal game'); simpl; split_and!; try done.
  - symmetry in Hturn. apply Marker_eqb_eq in Hturn. congruence.
Qed.

Lemma onMakeMove_accepted_witness :
  games one_session !! "A" = Some (newGame "A" "a2" "a1" 0)
  ∧ players one_session !! "a2" = Some (mkPlayerInfo "A" X "Player1")
  ∧ outbox (onMakeMove one_session "a2" "A" (PNum 4) 50).1
    = outbox one_session
      ++ [(ToRoom "A",
           GameUpdate (makeMove (newGame "A" "a2" "a1" 0) (PNum 4) X).1)].
Proof.
  assert (Hg : games one_session !! "A" = Some (newGame "A" "a2" "a1" 0))
    by (vm_compute; reflexivity).
  assert (Hp : players one_session !! "a2"
               = Some (mkPlayerInfo "A" X "Player1"))
    by (vm_compute; reflexivity).
  split; [exact Hg|]. split; [exact Hp|].
  refine (proj1 (proj2 (onMakeMove_accepted one_session "a2" "A" (PNum 4) 50
                          _ _ Hg Hp _ _))); vm_compute; reflexivity.
Defined.

(** X15: when the oldest pending callback runs, ['gameEnd'] with the
    winner, the draw flag, the duration and the move count of its game is
    sent to the room; the room is removed from [games], and so are the
    entries of [players] for the socket that made the terminal move and
    for the socket on the seat opposite to that socket's symbol, which
    are the two seats of the game when the mover sat in it on the seat of
    its symbol.  Counters and the waiting queue are untouched.  In the
    state the callback leaves, a move request naming that room is
    answered "Game not found" and changes nothing else. *)
Theorem timeout_cleans_up (s : Server) (t : Timer) (rest : list Timer) :
  timers s = t :: rest →
  let s' := step s Timeout in
  let opponentId := game_player (t_game t) (other (t_symbol t)) in
  outbox s'
  = outbox s ++ [(ToRoom (t_roomId t),
                  GameEnd (winner (t_game t)) (isDraw (t_game t))
                          (t_duration t) (moveCount (t_game t)))]
  ∧ games s' = delete (t_roomId t) (games s)
  ∧ players s' = delete opponentId (delete (t_socket t) (players s))
  ∧ timers s' = rest
  ∧ metrics s' = metrics s
  ∧ waitingPlayers s' = waitingPlayers s
  ∧ (game_player (t_game t) (t_symbol t) = t_socket t →
     ∀ m, players s' !! game_player (t_game t) m = None)
  ∧ ∀ socket position now,
      onMakeMove s' socket (t_roomId t) position now
      = (emit (ToSocket socket) (ErrorMessage "Game not found") s',
         Returned ()).
Proof.
  intros Ht. simpl. rewrite Ht. simpl. split_and!; try done.
  - intros Hseat m.
    destruct (decide (m = t_symbol t)) as [->|Hm].
    + rewrite Hseat. apply lookup_delete_None. right.
      apply lookup_delete_eq.
    + replace m with (other (t_symbol t))
        by (destruct m, (t_symbol t); done).
      apply lookup_delete_eq.
  - intros socket position now. unfold onMakeMove. simpl.
    by rewrite lookup_delete_eq.
Qed.

Lemma timeout_cleans_up_witness :
  let s := steps one_session x_wins_A in
  length (timers s) = 1 ∧ games (step s Timeout) !! "A" = None
  ∧ players (step s Timeout) !! "a1" = None
  ∧ players (step s Timeout) !! "a2" = None.
Proof.
  cbv zeta.
  assert (Ht : timers (steps one_session x_wins_A)
               = [mkTimer "A" "a2" X
                    (run (newGame "A" "a2" "a1" 0)
                       [(PNum 0, X); (PNum 3, O); (PNum 1, X); (PNum 4, O);
                        (PNum 2, X)])
                    (inject_Z (2000 - 0) / 1000)%Q])
    by (vm_compute; reflexivity).
  split; [by rewrite Ht|].
  destruct (timeout_cleans_up _ _ _ Ht)
    as (_ & Hgames & _ & _ & _ & _ & Hseats & _).
  split; [rewrite Hgames; apply lookup_delete_eq|].
  split; [exact (Hseats eq_refl O)|exact (Hseats eq_refl X)].
Defined.

(** X16: a move request that names a room not in [games], or comes from
    a socket without a membership, is answered "Game not found" and
    changes nothing else. *)
Theorem onMakeMove_not_found (s : Server) (socket room : string)
    (position : Position) (now : Z) :
  games s !! room = None ∨ players s !! socket = None →
  onMakeMove s socket room position now
  = (emit (ToSocket socket) (ErrorMessage "Game not found") s, Returned ()).
Proof.
  unfold onMakeMove. intros [->| ->]; [done|].
  by destruct (games s !! room).
Qed.

Lemma onMakeMove_not_found_witness :
  games one_session !! "nowhere" = None
  ∧ onMakeMove one_session "a2" "nowhere" (PNum 0) 5
    = (emit (ToSocket "a2") (ErrorMessage "Game not found") one_session,
       Returned ()).
Proof.
  assert (Hg : games one_session !! "nowhere" = None)
    by (vm_compute; reflexivity).
  split; [exact Hg|].
  exact (onMakeMove_not_found one_session "a2" "nowhere" (PNum 0) 5
           (or_introl Hg)).
Defined.

(** ** Memberships and games agree *)

Lemma checkWinner_game_player g m :
  game_player (checkWinner g) m = game_player g m.
Proof.
  unfold checkWinner. destruct (scan_patterns _ _); [by destruct m|].
  destruct (moveCount g =? 9); by destruct m.
Qed.

Lemma makeMove_game_player g position symbol m :
  game_player (makeMove g position symbol).1 m = game_player g m.
Proof.
  destruct (makeMove_cases g position symbol) as [Hok|Hsame].
  - destruct (makeMove_accepted _ _ _ Hok) as (_ & _ & _ & ->).
    transitivity (game_player (checkWinner
      (set_moveCount (S (moveCount g))
         (set_board (board_set (board g) position (Mark symbol)) g))) m).
    + by destruct m.
    + rewrite checkWinner_game_player. by destruct m.
  - by rewrite Hsame.
Qed.

Lemma serve_memberships_consistent (s : Server) (i : Inbound) :
  memberships_consistent s → room_unused s i →
  memberships_consistent (serve s i).
Proof.
  intros Hinv Hfresh.
  destruct i as [socket n|[socket room now|socket room position now
                            |socket|]]; simpl; [done|..].
  - unfold onFindGame.
    destruct (waitingPlayers s) as [|opponent rest]; [done|].
    intros id player game. simpl.
    intros [[<- <-]|[Hne1 [[<- <-]|[Hne2 Hp]]%lookup_insert_Some]]
             %lookup_insert_Some; simpl.
    + rewrite lookup_insert_eq. by intros [= <-].
    + rewrite lookup_insert_eq. by intros [= <-].
    + rewrite lookup_insert_ne by (intros E; by apply (Hfresh _ _ Hp)).
      by apply Hinv.
  - unfold onMakeMove.
    destruct (games s !! room) as [game|] eqn:Hg; [|done].
    destruct (players s !! socket) as [player|]; [|done].
    destruct (negb _); [done|].
    pose proof (makeMove_game_player game position (p_symbol player)) as Hpl.
    destruct (makeMove game position (p_symbol player))
      as [game' [[|]|]]; [|done|done]. simpl in Hpl.
    assert (Hins : ∀ id pl g,
              players s !! id = Some pl →
              <[room:=game']> (games s) !! p_roomId pl = Some g →
              game_player g (p_symbol pl) = id).
    { intros id pl g Hp.
      destruct (decide (room = p_roomId pl)) as [->|Hne].
      - rewrite lookup_insert_eq. intros [= <-]. rewrite Hpl.
        by apply (Hinv _ _ _ Hp).
      - rewrite lookup_insert_ne by done. by apply Hinv. }
    by destruct (terminal game').
  - unfold onDisconnect. simpl.
    destruct (players s !! socket) as [player|] eqn:Hpl; simpl.
    + destruct (String.eqb _ _); simpl.
      * intros id pl g; simpl.
        intros [_ Hp]%lookup_delete_Some. by apply Hinv.
      * destruct (games s !! p_roomId player) as [game0|] eqn:Hg; simpl.
        -- intros id pl g; simpl.
           intros [_ [_ Hp]%lookup_delete_Some]%lookup_delete_Some
             [_ Hg']%lookup_delete_Some.
           by apply (Hinv _ _ _ Hp).
        -- intros id pl g; simpl.
           intros [_ Hp]%lookup_delete_Some. by apply Hinv.
    + intros id pl g; simpl.
      intros [_ Hp]%lookup_delete_Some. by apply Hinv.
  - destruct (timers s) as [|t rest]; simpl; [done|].
    intros id pl g; simpl.
    intros [_ [_ Hp]%lookup_delete_Some]%lookup_delete_Some
      [_ Hg']%lookup_delete_Some.
    by apply (Hinv _ _ _ Hp).
Qed.

Lemma serveAll_memberships_consistent (s : Server) (inb : list Inbound) :
  memberships_consistent s → rooms_unused s inb →
  memberships_consistent (serveAll s inb).
Proof.
  revert s. induction inb as [|i inb IH]; intros s Hinv Hfresh; [done|].
  destruct Hfresh as [Hi Hrest]. simpl. apply IH; [|done].
  by apply serve_memberships_consistent.
Qed.

(** X17: as long as every new game gets a room id that no membership
    already uses, each membership whose room is in [games] belongs to a
    socket sitting in that game on the seat the membership records; so
    the opponent a disconnect looks up is the socket on the other seat. *)
Theorem memberships_stay_consistent (inb : list Inbound) (id : string)
    (player : PlayerInfo) (game : Game) :
  rooms_unused initialServer inb →
  players (serveAll initialServer inb) !! id = Some player →
  games (serveAll initialServer inb) !! p_roomId player = Some game →
  game_player game (p_symbol player) = id.
Proof.
  intros Hfresh.
  apply (serveAll_memberships_consistent initialServer inb); [|done].
  intros ? ? ? H. simpl in H. by rewrite lookup_empty in H.
Qed.

(** ** Finished games are cleaned up *)

Lemma serve_cleanup_scheduled (s : Server) (i : Inbound) :
  cleanup_scheduled s → cleanup_scheduled (serve s i).
Proof.
  intros Hinv.
  destruct i as [socket n|[socket room now|socket room position now
                            |socket|]]; simpl; [done|..].
  - unfold onFindGame.
    destruct (waitingPlayers s) as [|opponent rest]; [done|].
    intros r g. simpl.
    intros [[<- <-]|[Hne Hg]]%lookup_insert_Some Hterm; [done|].
    by apply (Hinv r g).
  - unfold onMakeMove.
    destruct (games s !! room) as [game|] eqn:Hg; [|done].
    destruct (players s !! socket) as [player|]; [|done].
    destruct (negb _); [done|].
    destruct (makeMove game position (p_symbol player))
      as [game' [[|]|]]; [|done|done].
    destruct (terminal game') eqn:Hterm'; simpl.
    + intros r g; simpl.
      intros [[<- <-]|[Hne Hg']]%lookup_insert_Some Hterm.
      * eexists. split; [apply elem_of_app; right; by left|done].
      * destruct (Hinv r g Hg' Hterm) as (t & Ht & Hr).
        exists t. split; [|done]. apply elem_of_app. by left.
    + intros r g; simpl.
      intros [[<- <-]|[Hne Hg']]%lookup_insert_Some Hterm.
      * congruence.
      * by apply (Hinv r g).
  - unfold onDisconnect. simpl.
    destruct (players s !! socket) as [player|]; simpl; [|done].
    destruct (String.eqb _ _); simpl; [done|].
    destruct (games s !! p_roomId player) as [game0|]; simpl; [|done].
    intros r g; simpl. intros [_ Hg]%lookup_delete_Some. by apply Hinv.
  - destruct (timers s) as [|t rest] eqn:Htimers; simpl; [done|].
    intros r g; simpl. intros [Hne Hg]%lookup_delete_Some Hterm.
    destruct (Hinv r g Hg Hterm) as (t' & Ht' & Hr).
    rewrite Htimers in Ht'. apply elem_of_cons in Ht' as [->|Ht'].
    + congruence.
    + by exists t'.
Qed.

(** X18: whatever the clients send, every game in [games] that carries
    a terminal flag has a clean-up callback for its room pending; no
    finished game stays in the table once the callbacks have run. *)
Theorem finished_games_have_cleanup (inb : list Inbound) (room : string)
    (game : Game) :
  games (serveAll initialServer inb) !! room = Some game →
  terminal game = true →
  ∃ t, t ∈ timers (serveAll initialServer inb) ∧ t_roomId t = room.
Proof.
  revert room game.
  apply (serveAll_invariant cleanup_scheduled).
  - intros r g H. simpl in H. by rewrite lookup_empty in H.
  - apply serve_cleanup_scheduled.
Qed.

Lemma memberships_stay_consistent_witness :
  let inb := [Handled (FindGame "a1" "A" 0); Handled (FindGame "a2" "A" 0)] in
  rooms_unused initialServer inb
  ∧ players (serveAll initialServer inb) !! "a2"
    = Some (mkPlayerInfo "A" X "Player1")
  ∧ games (serveAll initialServer inb) !! "A"
    = Some (newGame "A" "a2" "a1" 0)
  ∧ game_player (newGame "A" "a2" "a1" 0) X = "a2".
Proof.
  cbv zeta.
  assert (Hfresh : rooms_unused initialServer
            [Handled (FindGame "a1" "A" 0); Handled (FindGame "a2" "A" 0)]).
  { simpl. split_and!; [| |done];
      intros id pl H; simpl in H; by rewrite lookup_empty in H. }
  assert (Hp : players (serveAll initialServer
                 [Handled (FindGame "a1" "A" 0);
                  Handled (FindGame "a2" "A" 0)]) !! "a2"
               = Some (mkPlayerInfo "A" X "Player1"))
    by (vm_compute; reflexivity).
  assert (Hg : games (serveAll initialServer
                 [Handled (FindGame "a1" "A" 0);
                  Handled (FindGame "a2" "A" 0)]) !! "A"
               = Some (newGame "A" "a2" "a1" 0))
    by (vm_compute; reflexivity).
  split; [exact Hfresh|]. split; [exact Hp|]. split; [exact Hg|].
  exact (memberships_stay_consistent _ "a2" _ _ Hfresh Hp Hg).
Defined.

Lemma finished_games_have_cleanup_witness :
  let inb := [Handled (FindGame "a1" "A" 0); Handled (FindGame "a2" "A" 0)]
             ++ map Handled x_wins_A in
  let g := run (newGame "A" "a2" "a1" 0)
               [(PNum 0, X); (PNum 3, O); (PNum 1, X); (PNum 4, O);
                (PNum 2, X)] in
  games (serveAll initialServer inb) !! "A" = Some g
  ∧ terminal g = true
  ∧ ∃ t, t ∈ timers (serveAll initialServer inb) ∧ t_roomId t = "A".
Proof.
  cbv zeta.
  assert (Hg : games (serveAll initialServer
                 ([Handled (FindGame "a1" "A" 0);
                   Handled (FindGame "a2" "A" 0)]
                  ++ map Handled x_wins_A)) !! "A"
               = Some (run (newGame "A" "a2" "a1" 0)
                         [(PNum 0, X); (PNum 3, O); (PNum 1, X);
                          (PNum 4, O); (PNum 2, X)]))
    by (vm_compute; reflexivity).
  assert (Ht : terminal (run (newGame "A" "a2" "a1" 0)
                         [(PNum 0, X); (PNum 3, O); (PNum 1, X);
                          (PNum 4, O); (PNum 2, X)]) = true)
    by (vm_compute; reflexivity).
  split; [exact Hg|]. split; [exact Ht|].
  exact (finished_games_have_cleanup _ "A" _ Hg Ht).
Defined.

(** ** A disconnected socket leaves nothing behind in the tables *)

Lemma NoDup_short (l : list string) : length l ≤ 1 → NoDup l.
Proof.
  destruct l as [|x [|y l]]; simpl; intros H.
  - constructor.
  - apply NoDup_singleton.
  - lia.
Qed.

(** X20: after the [disconnect] of a socket, at any point of any run, the
    socket is neither in the waiting queue nor in [players]: a later
    [findGame] cannot be paired with it and it can no longer move. *)
Theorem disconnected_socket_is_gone (inb : list Inbound) (socket : string) :
  let s := onDisconnect (serveAll initialServer inb) socket in
  (socket ∉ waitingPlayers s)
  ∧ players s !! socket = None
  ∧ ∀ room position now,
      onMakeMove s socket room position now
      = (emit (ToSocket socket) (ErrorMessage "Game not found") s,
         Returned ()).
Proof.
  intros s. split_and!.
  - subst s. rewrite onDisconnect_waitingPlayers.
    apply remove_first_NoDup, NoDup_short.
    apply (serveAll_invariant (λ s, length (waitingPlayers s) ≤ 1)).
    + simpl. lia.
    + apply step_waitingPlayers_length.
  - apply onDisconnect_players.
  - intros room position now. unfold onMakeMove.
    subst s. rewrite onDisconnect_players.
    by destruct (games _ !! room).
Qed.
